(** * A store with selector subscriptions (src/index.ts)

    The file embeds [create] of src/index.ts: the store closure ([state],
    [listeners], [setState], [getState], [subscribe], [destroy]) and the
    subscription object [useStore] hands to [useSubscription].

    Modelling decisions.
    - A JavaScript value is a primitive or an object.  An object is an
      immutable pair of an allocation name and its own enumerable
      string-keyed properties; two objects are the same reference when both
      agree, so a copy made by [Object.assign] (a new name) differs from its
      source even though the properties coincide.
    - Numbers are the integers plus [NaN] and [-0], the two values on which
      [===] and [Object.is] disagree.
    - Functions supplied by the application (updaters, selectors, equality
      checkers) are pure: a function of their arguments
      that returns a value or throws one; the same arguments give the same
      result, the identity of a returned object included.  Every call to one
      of them is recorded in the store's [trace].
    - The initializer passed to [create] is the sequence of calls it makes
      to [setState], [getState] and [api] before it returns or throws
      ([StateCreator]).
    - Calling a listener records the call with its arguments in the trace.
      [setState], [notify], [forEach] and [listenerToAdd] take the listener to
      return; [setState_with], [notify_with], [forEach_with] and
      [listenerToAdd_with] follow a listener that throws, and agree with the
      former when the registered listeners return
      ([setState_with_returning]).  The change callback the rendering
      framework passes to the subscription object returns.  No listener calls
      back into the store while a notification is running.
    - The closure variables of [create] are the fields of [Store]; every
      operation is a computation in the state-and-exception monad [M]. *)

From Stdlib Require Import ZArith.
From stdpp Require Import base option list strings gmap pretty.

Set Warnings "-register-all".

(** ** Values *)

Inductive number := NaN | NegZero | Int (z : Z).

(** Allocation names: [App n] for objects the application allocated,
    [Merged n] for the n-th target [{}] of an [Object.assign] in [setState]. *)
Inductive ref := App (n : nat) | Merged (n : nat).

Inductive value :=
| VUndefined
| VNull
| VBool (b : bool)
| VNumber (n : number)
| VString (s : string)
| VObject (r : ref) (props : gmap string value).

Global Instance number_eq_dec : EqDecision number.
Proof. solve_decision. Defined.

Global Instance ref_eq_dec : EqDecision ref.
Proof. solve_decision. Defined.

Global Instance value_eq_dec : EqDecision value.
Proof.
  refine (fix go (x y : value) : Decision (x = y) :=
    match x, y with
    | VUndefined, VUndefined => left _
    | VNull, VNull => left _
    | VBool a, VBool b => cast_if (decide (a = b))
    | VNumber a, VNumber b => cast_if (decide (a = b))
    | VString a, VString b => cast_if (decide (a = b))
    | VObject r p, VObject r' p' =>
        cast_if_and (decide (r = r'))
                    (@decide (p = p') (@gmap_eq_dec _ _ _ _ go _ _))
    | _, _ => right _
    end); congruence.
Defined.

(** [x === y] on numbers: [NaN] equals nothing, [-0] equals [0]. *)
Definition number_strict_equal (a b : number) : bool :=
  match a, b with
  | NaN, _ | _, NaN => false
  | NegZero, NegZero => true
  | NegZero, Int z | Int z, NegZero => bool_decide (z = 0%Z)
  | Int x, Int y => bool_decide (x = y)
  end.

(** [x === y]: by value on primitives, by reference on objects. *)
Definition strict_equal (x y : value) : bool :=
  match x, y with
  | VNumber a, VNumber b => number_strict_equal a b
  | _, _ => bool_decide (x = y)
  end.

(** [Object.is(x, y)]: same-value equality. *)
Definition Object_is (x y : value) : bool := bool_decide (x = y).

(** ToBoolean. *)
Definition truthy (v : value) : bool :=
  match v with
  | VUndefined | VNull => false
  | VBool b => b
  | VNumber NaN | VNumber NegZero => false
  | VNumber (Int z) => negb (bool_decide (z = 0%Z))
  | VString s => negb (bool_decide (s = EmptyString))
  | VObject _ _ => true
  end.

Fixpoint string_chars (s : string) : list value :=
  match s with
  | EmptyString => []
  | String c s' => VString (String c EmptyString) :: string_chars s'
  end.

(** The own enumerable properties [Object.assign] copies from a source:
    none for [undefined], [null], booleans and numbers, the indexed characters
    for a string, the properties for an object. *)
Definition own_props (v : value) : gmap string value :=
  match v with
  | VObject _ props => props
  | VString s => list_to_map (imap (λ i c, (pretty i, c)) (string_chars s))
  | _ => ∅
  end.

(** One source copied onto a target: the source's value wins on a shared key. *)
Definition assign (target : gmap string value) (source : value)
  : gmap string value :=
  own_props source ∪ target.

(** The properties of [Object.assign({}, s1, ..., sn)]. *)
Definition Object_assign (sources : list value) : gmap string value :=
  foldl assign ∅ sources.

(** ** Application functions, events *)

Inductive outcome (A : Type) :=
| Return (a : A)
| Throw (error : value).
Arguments Return {A} a.
Arguments Throw {A} error.

Definition StateSelector := value → outcome value.
Definition EqualityChecker := value → value → outcome bool.

(** The first argument of [setState]: a partial state, or ([typeof partial
    === 'function']) a function of the state. *)
Inductive PartialState :=
| Partial (v : value)
| Updater (f : value → outcome value).

Inductive callee :=
| CreateState
| UpdaterFn
| SelectorFn
| EqualityFn
| ListenerFn (l : nat)
| OnChange (h : nat).

Inductive event := Call (f : callee) (args : list value).

(** ** The store *)

(** The [listener] argument of [subscribe]: a listener of the application,
    or the wrapper the subscription object [h] of [useStore] builds around
    the framework's callback. *)
Inductive StateListener :=
| AppListener (l : nat)
| HookListener (h : nat).

Global Instance StateListener_eq_dec : EqDecision StateListener.
Proof. solve_decision. Defined.

(** The closure of one [subscribe] call. *)
Record Subscription := {
  listener : StateListener;
  selector : option StateSelector;      (* None: the default, getState *)
  equalityFn : option EqualityChecker;  (* None: the default, Object.is *)
  currentSlice : value
}.

(** The closure of one subscription object built in [useStore]. *)
Record Hook := {
  hook_selector : option StateSelector;
  hook_equalityFn : option EqualityChecker;
  hook_currentSlice : value;
  errored : bool
}.

Record Store := {
  state : value;
  listeners : list (nat * Subscription); (* the Set, in insertion order, each
                                            listenerToAdd under its identity *)
  hooks : gmap nat Hook;
  next_listener : nat;
  next_hook : nat;
  next_object : nat;
  trace : list event
}.

Definition set_state (v : value) (st : Store) : Store :=
  {| state := v; listeners := listeners st; hooks := hooks st;
     next_listener := next_listener st; next_hook := next_hook st;
     next_object := next_object st; trace := trace st |}.

Definition set_listeners (ls : list (nat * Subscription)) (st : Store) : Store :=
  {| state := state st; listeners := ls; hooks := hooks st;
     next_listener := next_listener st; next_hook := next_hook st;
     next_object := next_object st; trace := trace st |}.

Definition set_hooks (hs : gmap nat Hook) (st : Store) : Store :=
  {| state := state st; listeners := listeners st; hooks := hs;
     next_listener := next_listener st; next_hook := next_hook st;
     next_object := next_object st; trace := trace st |}.

Definition set_next_listener (n : nat) (st : Store) : Store :=
  {| state := state st; listeners := listeners st; hooks := hooks st;
     next_listener := n; next_hook := next_hook st;
     next_object := next_object st; trace := trace st |}.

Definition set_next_hook (n : nat) (st : Store) : Store :=
  {| state := state st; listeners := listeners st; hooks := hooks st;
     next_listener := next_listener st; next_hook := n;
     next_object := next_object st; trace := trace st |}.

Definition set_next_object (n : nat) (st : Store) : Store :=
  {| state := state st; listeners := listeners st; hooks := hooks st;
     next_listener := next_listener st; next_hook := next_hook st;
     next_object := n; trace := trace st |}.

Definition set_trace (t : list event) (st : Store) : Store :=
  {| state := state st; listeners := listeners st; hooks := hooks st;
     next_listener := next_listener st; next_hook := next_hook st;
     next_object := next_object st; trace := t |}.

Definition set_currentSlice (v : value) (sub : Subscription) : Subscription :=
  {| listener := listener sub; selector := selector sub;
     equalityFn := equalityFn sub; currentSlice := v |}.

Definition set_hook_currentSlice (v : value) (hk : Hook) : Hook :=
  {| hook_selector := hook_selector hk; hook_equalityFn := hook_equalityFn hk;
     hook_currentSlice := v; errored := errored hk |}.

Definition set_errored (b : bool) (hk : Hook) : Hook :=
  {| hook_selector := hook_selector hk; hook_equalityFn := hook_equalityFn hk;
     hook_currentSlice := hook_currentSlice hk; errored := b |}.

(** ** The monad of store operations *)

Definition M (A : Type) : Type := Store → outcome A * Store.

Definition ret {A} (a : A) : M A := λ st, (Return a, st).

Definition throw {A} (error : value) : M A := λ st, (Throw error, st).

Definition bind {A B} (m : M A) (k : A → M B) : M B :=
  λ st, match m st with
        | (Return a, st') => k a st'
        | (Throw error, st') => (Throw error, st')
        end.

(** [try { body } catch (error) { handler }]: what [body] did to the store
    before it threw stays done. *)
Definition try_catch {A} (body : M A) (handler : value → M A) : M A :=
  λ st, match body st with
        | (Return a, st') => (Return a, st')
        | (Throw error, st') => handler error st'
        end.

Definition read {A} (field : Store → A) : M A := λ st, (Return (field st), st).

Definition write (f : Store → Store) : M unit := λ st, (Return tt, f st).

Definition lift {A} (o : outcome A) : M A := λ st, (o, st).

Definition emit (e : event) : M unit :=
  write (λ st, set_trace (trace st ++ [e]) st).

Notation "'do' x <- m ; k" := (bind m (λ x, k))
  (at level 10, x name, m at level 100, k at level 200).
Notation "m ;; k" := (bind m (λ _, k))
  (at level 100, k at level 200, right associativity).

(** ** Calls to application functions *)

(** [selector(state)]: the default selector is [getState], which ignores its
    argument and returns the held state. *)
Definition call_selector (sel : option StateSelector) (s : value) : M value :=
  match sel with
  | Some f => emit (Call SelectorFn [s]) ;; lift (f s)
  | None => read state
  end.

(** [equalityFn(a, b)]. *)
Definition call_equalityFn (eq : option EqualityChecker) (a b : value) : M bool :=
  match eq with
  | Some f => emit (Call EqualityFn [a; b]) ;; lift (f a b)
  | None => ret (Object_is a b)
  end.

(** [hooks[h]] updated in place. *)
Definition update_hook (h : nat) (f : Hook → Hook) : M unit :=
  write (λ st, set_hooks (alter f h (hooks st)) st).

(** The listener the subscription object registers (lines 120-127):
    [(nextSlice, error) => { if (error) errored = true
                             else currentSlice = nextSlice; callback() }]. *)
Definition hook_listener (h : nat) (nextSlice error : value) : M unit :=
  (if truthy error
   then update_hook h (set_errored true)
   else update_hook h (set_hook_currentSlice nextSlice)) ;;
  emit (Call (OnChange h) []).

(** [listener(...args)]; a missing argument is [undefined]. *)
Definition call_listener (l : StateListener) (args : list value) : M unit :=
  match l with
  | AppListener n => emit (Call (ListenerFn n) args)
  | HookListener h =>
      hook_listener h (nth 0 args VUndefined) (nth 1 args VUndefined)
  end.

(** ** create: the store API *)

Definition getState : M value := read state.

(** The closure [listenerToAdd] of a subscription, run on a notification;
    it returns the closure with its [currentSlice] as the run left it. *)
Definition listenerToAdd (sub : Subscription) : M Subscription :=
  try_catch
    (do s <- read state;
     do newStateSlice <- call_selector (selector sub) s;
     do same <- call_equalityFn (equalityFn sub) (currentSlice sub) newStateSlice;
     if negb same then
       call_listener (listener sub) [newStateSlice] ;;
       ret (set_currentSlice newStateSlice sub)
     else ret sub)
    (λ error, call_listener (listener sub) [VNull; error] ;; ret sub).

(** [listeners.forEach(listener => listener())]. *)
Fixpoint forEach (ls : list (nat * Subscription)) : M (list (nat * Subscription)) :=
  match ls with
  | [] => ret []
  | (id, sub) :: rest =>
      do sub' <- listenerToAdd sub;
      do rest' <- forEach rest;
      ret ((id, sub') :: rest')
  end.

Definition notify : M unit :=
  do ls <- read listeners;
  do ls' <- forEach ls;
  write (set_listeners ls').

(** [Object.assign({}, state, nextState)]: a new object. *)
Definition merge_state (s nextState : value) : M value :=
  do n <- read next_object;
  write (set_next_object (S n)) ;;
  ret (VObject (Merged n) (Object_assign [s; nextState])).

Definition setState (partial : PartialState) (replace : bool) : M unit :=
  do nextState <-
    match partial with
    | Updater f =>
        do s <- read state;
        emit (Call UpdaterFn [s]) ;; lift (f s)
    | Partial v => ret v
    end;
  do s <- read state;
  if negb (strict_equal nextState s) then
    (if replace then write (set_state nextState)
     else do merged <- merge_state s nextState; write (set_state merged)) ;;
    notify
  else ret tt.

(** [subscribe(listener, selector, equalityFn)]; the result stands for the
    [unsubscribe] closure: the identity of the [listenerToAdd] it deletes. *)
Definition subscribe (l : StateListener) (sel : option StateSelector)
    (eq : option EqualityChecker) : M nat :=
  do s <- read state;
  do slice <- call_selector sel s;
  do id <- read next_listener;
  write (set_next_listener (S id)) ;;
  do ls <- read listeners;
  write (set_listeners (ls ++ [(id, {| listener := l; selector := sel;
                                       equalityFn := eq;
                                       currentSlice := slice |})])) ;;
  ret id.

(** [listeners.delete(listenerToAdd)]. *)
Definition unsubscribe (id : nat) : M unit :=
  do ls <- read listeners;
  write (set_listeners (filter (λ e, e.1 ≠ id) ls)).

(** [listeners.clear()]. *)
Definition destroy : M unit := write (set_listeners []).

(** ** useStore: the subscription object *)

(** The factory passed to [useMemo] (lines 100-103): it computes the first
    slice and returns the object, named here by a new hook identity. *)
Definition useStore_subscription (sel : option StateSelector)
    (eq : option EqualityChecker) : M nat :=
  do s <- read state;
  do slice <- call_selector sel s;
  do h <- read next_hook;
  write (set_next_hook (S h)) ;;
  write (λ st, set_hooks (<[h := {| hook_selector := sel;
                                     hook_equalityFn := eq;
                                     hook_currentSlice := slice;
                                     errored := false |}]> (hooks st)) st) ;;
  ret h.

(** [subscription.getCurrentValue()] (lines 104-118).  The inner computation
    yields [Some v] for a [return v] inside the [try] block and [None] when
    control falls through to the final [return currentSlice].  An identity that
    [useStore_subscription] never returned names no subscription object. *)
Definition getCurrentValue (h : nat) : M value :=
  do hs <- read hooks;
  match hs !! h with
  | None => ret VUndefined
  | Some hk =>
      do early <-
        try_catch
          (if errored hk then
             update_hook h (set_errored false) ;;
             do s <- read state;
             do newStateSlice <- call_selector (hook_selector hk) s;
             do same <- call_equalityFn (hook_equalityFn hk)
                          (hook_currentSlice hk) newStateSlice;
             if same then ret (Some (hook_currentSlice hk))
             else ret (Some newStateSlice)
           else ret None)
          (λ _, ret None);
      match early with
      | Some v => ret v
      | None => ret (hook_currentSlice hk)
      end
  end.

(** [subscription.subscribe(callback)] (lines 119-130). *)
Definition hook_subscribe (h : nat) : M nat :=
  do hs <- read hooks;
  match hs !! h with
  | None => throw VUndefined
  | Some hk => subscribe (HookListener h) (hook_selector hk) (hook_equalityFn hk)
  end.

(** [create(createState)] (lines 51-52 and 136-139): the result is the store
    behind the returned pair [[useStore, api]]. *)
Definition empty_store : Store :=
  {| state := VUndefined; listeners := []; hooks := ∅;
     next_listener := 0; next_hook := 0; next_object := 0; trace := [] |}.

(** The initializer [createState(setState, getState, api)] (line 137), by the
    calls it makes to its three arguments before it completes: each
    constructor but the first is one call of the store API, with the
    continuation that receives what the call returned or threw; [Finish] is
    the [return] or the [throw] that ends the initializer.  An initializer that
    only builds the first state is [Finish (Return v)], written [Return v]. *)
Inductive StateCreator :=
| Finish (completion : outcome value)
| CallSetState (partial : PartialState) (replace : bool)
    (k : outcome unit → StateCreator)
| CallGetState (k : value → StateCreator)
| CallSubscribe (l : nat) (sel : option StateSelector)
    (eq : option EqualityChecker) (k : outcome nat → StateCreator)
| CallUnsubscribe (id : nat) (k : StateCreator)
| CallDestroy (k : StateCreator).

#[warnings="-uniform-inheritance"]
Coercion Finish : outcome >-> StateCreator.

(** Running the initializer against the store being created. *)
Fixpoint call_createState (createState : StateCreator) : M value :=
  match createState with
  | Finish completion => lift completion
  | CallSetState partial replace k =>
      λ st, let (r, st') := setState partial replace st in
            call_createState (k r) st'
  | CallGetState k => do s <- getState; call_createState (k s)
  | CallSubscribe l sel eq k =>
      λ st, let (r, st') := subscribe (AppListener l) sel eq st in
            call_createState (k r) st'
  | CallUnsubscribe id k => unsubscribe id ;; call_createState k
  | CallDestroy k => destroy ;; call_createState k
  end.

Definition create (createState : StateCreator) : outcome unit * Store :=
  (emit (Call CreateState []) ;;
   do s <- call_createState createState;
   write (set_state s)) empty_store.

(** The store as the initializer finds it: nothing held, nobody registered,
    its own call recorded. *)
Definition started : Store := (emit (Call CreateState []) empty_store).2.

(** ** Listeners that throw

    The operations above take a listener of the application to return once
    called.  Here [throws l args] is what listener [l] throws when called with
    [args], if it throws, and [listenerToAdd_with], [forEach_with],
    [notify_with] and [setState_with] are the same lines of the source with
    the listener's exception followed through the [try] (line 81), the
    [catch] (line 84), the loop (line 62) and out of [setState].  The change
    callback of the rendering framework is still taken to return. *)
Section Throwing.

Context (throws : nat → list value → option value).

Definition call_listener_with (l : StateListener) (args : list value) : M unit :=
  match l with
  | AppListener n =>
      emit (Call (ListenerFn n) args) ;;
      match throws n args with
      | Some error => throw error
      | None => ret tt
      end
  | HookListener h =>
      hook_listener h (nth 0 args VUndefined) (nth 1 args VUndefined)
  end.

(** One run of [listenerToAdd]: how it ended, and the closure with its
    [currentSlice] as the run left it (assigned before the listener is
    called, so kept when the listener throws). *)
Definition listenerToAdd_with (sub : Subscription)
  : Store → (outcome unit * Subscription) * Store :=
  λ st,
  let recompute :=
    do s <- read state;
    do newStateSlice <- call_selector (selector sub) s;
    do same <- call_equalityFn (equalityFn sub) (currentSlice sub) newStateSlice;
    ret (same, newStateSlice) in
  let handler := λ error, call_listener_with (listener sub) [VNull; error] in
  match recompute st with
  | (Return (same, newStateSlice), st1) =>
      if negb same then
        let (r, st2) :=
          try_catch (call_listener_with (listener sub) [newStateSlice]) handler st1 in
        ((r, set_currentSlice newStateSlice sub), st2)
      else ((Return tt, sub), st1)
  | (Throw error, st1) =>
      let (r, st2) := handler error st1 in ((r, sub), st2)
  end.

(** [listeners.forEach(listener => listener())]: an exception ends the loop,
    the closures not reached are as they were. *)
Fixpoint forEach_with (ls : list (nat * Subscription))
  : Store → (outcome unit * list (nat * Subscription)) * Store :=
  λ st,
  match ls with
  | [] => ((Return tt, []), st)
  | (id, sub) :: rest =>
      match listenerToAdd_with sub st with
      | ((Return _, sub'), st1) =>
          let '((r, rest'), st2) := forEach_with rest st1 in
          ((r, (id, sub') :: rest'), st2)
      | ((Throw error, sub'), st1) => ((Throw error, (id, sub') :: rest), st1)
      end
  end.

Definition notify_with : M unit :=
  λ st, let '((r, ls'), st') := forEach_with (listeners st) st in
        (r, set_listeners ls' st').

Definition setState_with (partial : PartialState) (replace : bool) : M unit :=
  do nextState <-
    match partial with
    | Updater f =>
        do s <- read state;
        emit (Call UpdaterFn [s]) ;; lift (f s)
    | Partial v => ret v
    end;
  do s <- read state;
  if negb (strict_equal nextState s) then
    (if replace then write (set_state nextState)
     else do merged <- merge_state s nextState; write (set_state merged)) ;;
    notify_with
  else ret tt.

(** Every registered listener of the application returns, whatever it is
    called with. *)
Definition returns_normally (ls : list (nat * Subscription)) : Prop :=
  Forall (λ e, ∀ n args, listener e.2 = AppListener n → throws n args = None) ls.

End Throwing.

(** [(slice, error) => { if (error) throw error }], for every listener. *)
Definition rethrows : nat → list value → option value :=
  λ _ args, if truthy (nth 1 args VUndefined) then Some (nth 1 args VUndefined)
            else None.

(** Listeners that return. *)
Definition returns : nat → list value → option value := λ _ _, None.

(** Listener 1 is [() => { throw "no" }], the others return. *)
Definition one_throws : nat → list value → option value :=
  λ l _, if decide (l = 1) then Some (VString "no") else None.

(** * Observing a run *)

Definition exec {A} (m : M A) (st : Store) : Store := (m st).2.

Definition result {A} (m : M A) (st : Store) : outcome A := (m st).1.

(** The events recorded between two stores of one run. *)
Definition events_since (st st' : Store) : list event :=
  drop (length (trace st)) (trace st').

(** The argument lists of the calls to listener [l], oldest first. *)
Definition calls (l : nat) (t : list event) : list (list value) :=
  flat_map (λ e, match e with
                 | Call (ListenerFn l') args => if decide (l' = l) then [args] else []
                 | _ => []
                 end) t.

(** The calls that notify somebody: a listener or a framework callback. *)
Definition is_notification (e : event) : bool :=
  match e with
  | Call (ListenerFn _) _ | Call (OnChange _) _ => true
  | _ => false
  end.

Definition notifications (t : list event) : list event :=
  List.filter is_notification t.

(** The calls of the initializer [createState] in a trace. *)
Definition is_creation (e : event) : bool :=
  match e with Call CreateState _ => true | _ => false end.

Definition creations (t : list event) : nat :=
  length (List.filter is_creation t).

(** ** Vocabulary of the statements *)

(** What a selector and an equality function compute, defaults included. *)
Definition apply_selector (sel : option StateSelector) (s : value) : outcome value :=
  match sel with Some f => f s | None => Return s end.

Definition apply_equalityFn (eq : option EqualityChecker) (a b : value) : outcome bool :=
  match eq with Some f => f a b | None => Return (Object_is a b) end.

(** The candidate next state [setState] resolves [partial] to. *)
Definition candidate (partial : PartialState) (s : value) : outcome value :=
  match partial with Partial v => Return v | Updater f => f s end.

(** A sequence of [setState(p)] calls, replace left out. *)
Fixpoint setStates (partials : list PartialState) : M unit :=
  match partials with
  | [] => ret tt
  | p :: rest => setState p false ;; setStates rest
  end.

(** The candidates the calls of [setStates] resolve, each on the state held
    when its call starts. *)
Fixpoint candidates (partials : list PartialState) (st : Store)
  : list (outcome value) :=
  match partials with
  | [] => []
  | p :: rest =>
      candidate p (state st) :: candidates rest (exec (setState p false) st)
  end.

(** In the spec's words: the value under key [k] once the partials have been
    merged left to right on top of the initial state is the one of the last
    partial that has the key, taken as it is, and the initial one if none
    has. *)
Fixpoint merged_value (k : string) (initial : option value)
    (partials : list value) : option value :=
  match partials with
  | [] => initial
  | c :: rest =>
      merged_value k (match own_props c !! k with
                      | Some v => Some v
                      | None => initial
                      end) rest
  end.

(** Entry [e] of the registry calls listener [l] of the application. *)
Definition listens (l : nat) (e : nat * Subscription) : bool :=
  match listener e.2 with
  | AppListener l' => bool_decide (l' = l)
  | HookListener _ => false
  end.

(** Listener [l] was passed to exactly one live [subscribe]. *)
Definition registered_once (l : nat) (ls : list (nat * Subscription)) : Prop :=
  length (List.filter (listens l) ls) = 1.

(** The cached slice of [sub] passes, by the subscription's equality
    function, for the slice of state [s]. *)
Definition in_step (sub : Subscription) (s : value) : Prop :=
  ∃ v, apply_selector (selector sub) s = Return v ∧
       apply_equalityFn (equalityFn sub) (currentSlice sub) v = Return true.

(** ** One notification pass, as pure functions of the held state

    [listenerToAdd_eq], [forEach_eq] and [setState_accepted] below prove that
    the operations compute exactly these. *)

Definition selector_events (sel : option StateSelector) (s : value) : list event :=
  match sel with Some _ => [Call SelectorFn [s]] | None => [] end.

Definition equalityFn_events (eq : option EqualityChecker) (a b : value) : list event :=
  match eq with Some _ => [Call EqualityFn [a; b]] | None => [] end.

Definition listener_events (l : StateListener) (args : list value) : list event :=
  match l with
  | AppListener n => [Call (ListenerFn n) args]
  | HookListener h => [Call (OnChange h) []]
  end.

Definition listener_hooks (l : StateListener) (args : list value)
    (hs : gmap nat Hook) : gmap nat Hook :=
  match l with
  | AppListener _ => hs
  | HookListener h =>
      if truthy (nth 1 args VUndefined) then alter (set_errored true) h hs
      else alter (set_hook_currentSlice (nth 0 args VUndefined)) h hs
  end.

(** The arguments [listenerToAdd] calls its listener with, if it calls it. *)
Definition delivery (s : value) (sub : Subscription) : option (list value) :=
  match apply_selector (selector sub) s with
  | Throw error => Some [VNull; error]
  | Return v =>
      match apply_equalityFn (equalityFn sub) (currentSlice sub) v with
      | Throw error => Some [VNull; error]
      | Return true => None
      | Return false => Some [v]
      end
  end.

Definition delivered (d : option (list value)) : list (list value) :=
  match d with Some args => [args] | None => [] end.

Definition refreshed (s : value) (sub : Subscription) : Subscription :=
  match apply_selector (selector sub) s with
  | Throw _ => sub
  | Return v =>
      match apply_equalityFn (equalityFn sub) (currentSlice sub) v with
      | Return false => set_currentSlice v sub
      | _ => sub
      end
  end.

Definition run_events (s : value) (sub : Subscription) : list event :=
  selector_events (selector sub) s ++
  match apply_selector (selector sub) s with
  | Throw _ => []
  | Return v => equalityFn_events (equalityFn sub) (currentSlice sub) v
  end ++
  match delivery s sub with
  | Some args => listener_events (listener sub) args
  | None => []
  end.

Definition run_hooks (s : value) (sub : Subscription) (hs : gmap nat Hook)
  : gmap nat Hook :=
  match delivery s sub with
  | Some args => listener_hooks (listener sub) args hs
  | None => hs
  end.

Definition pass_listeners (s : value) (ls : list (nat * Subscription))
  : list (nat * Subscription) :=
  map (λ e, (e.1, refreshed s e.2)) ls.

Definition pass_events (s : value) (ls : list (nat * Subscription)) : list event :=
  flat_map (λ e, run_events s e.2) ls.

Definition pass_hooks (s : value) (ls : list (nat * Subscription))
    (hs : gmap nat Hook) : gmap nat Hook :=
  foldl (λ hs e, run_hooks s e.2 hs) hs ls.

Definition updater_events (partial : PartialState) (s : value) : list event :=
  match partial with Updater _ => [Call UpdaterFn [s]] | Partial _ => [] end.

(** The state an accepted [setState] installs. *)
Definition next_state (replace : bool) (n : nat) (s x : value) : value :=
  if replace then x else VObject (Merged n) (Object_assign [s; x]).

Definition accepted (partial : PartialState) (replace : bool) (x : value)
    (st : Store) : Store :=
  let s' := next_state replace (next_object st) (state st) x in
  {| state := s';
     listeners := pass_listeners s' (listeners st);
     hooks := pass_hooks s' (listeners st) (hooks st);
     next_listener := next_listener st;
     next_hook := next_hook st;
     next_object := if replace then next_object st else S (next_object st);
     trace := trace st ++ updater_events partial (state st)
                       ++ pass_events s' (listeners st) |}.

(** The store of an accepted [setState] when the notification starts: the
    new state installed, nobody called yet. *)
Definition installed (partial : PartialState) (replace : bool) (x : value)
    (st : Store) : Store :=
  {| state := next_state replace (next_object st) (state st) x;
     listeners := listeners st;
     hooks := hooks st;
     next_listener := next_listener st;
     next_hook := next_hook st;
     next_object := if replace then next_object st else S (next_object st);
     trace := trace st ++ updater_events partial (state st) |}.

(** ** Worked inputs *)

Definition num (z : Z) : value := VNumber (Int z).

Definition obj (n : nat) (props : list (string * value)) : value :=
  VObject (App n) (list_to_map props).

(** [s => s?.[k]]. *)
Definition pick (k : string) : StateSelector :=
  λ s, Return (default VUndefined (own_props s !! k)).

(** [() => { throw "boom" }]. *)
Definition failing : StateSelector := λ _, Throw (VString "boom").

(** [() => {}]: an updater that returns nothing, that is undefined. *)
Definition returns_nothing : value → outcome value := λ _, Return VUndefined.

(** [s => ({count: s.count + 1})]. *)
Definition increment : value → outcome value :=
  λ s, Return (obj 1 [("count",
                       match own_props s !! "count" with
                       | Some (VNumber (Int z)) => num (z + 1)
                       | _ => VNumber NaN
                       end)]).


(** [s => { if (bad in s) throw "boom"; return s[good] }]. *)
Definition guarded (bad good : string) : StateSelector :=
  λ s, match own_props s !! bad with
       | Some _ => Throw (VString "boom")
       | None => Return (default VUndefined (own_props s !! good))
       end.

(** [(set, get, api) => { api.subscribe(listener4); set({early: true});
    return {a: 1} }]: an initializer that uses its arguments. *)
Definition busy_initializer : StateCreator :=
  CallSubscribe 4 None None (λ _,
  CallSetState (Partial (VObject (App 5) {[ "early" := VBool true ]})) false (λ _,
  Finish (Return (VObject (App 0) {[ "a" := VNumber (Int 1) ]})))).

(** [create(() => ({a: 1, b: 1}))]. *)
Definition store_ab : Store := (create (Return (obj 0 [("a", num 1); ("b", num 1)]))).2.

Definition store_count : Store := (create (Return (obj 0 [("count", num 0)]))).2.

(** [store_ab] after [subscribe(listener7, s => s.a)]. *)
Definition store_watched : Store :=
  exec (subscribe (AppListener 7) (Some (pick "a")) None) store_ab.

(** [store_ab] after [subscribe(listener1, guarded)] and
    [subscribe(listener2, s => s.a)]. *)
Definition store_two : Store :=
  exec (subscribe (AppListener 2) (Some (pick "a")) None)
    (exec (subscribe (AppListener 1) (Some (guarded "bad" "a")) None) store_ab).

(** A store whose subscription object 0 (selector [guarded]) has seen an
    error and lost its listener before the state was replaced: create,
    useStore's memo, its subscribe, setState({bad: true}), unsubscribe,
    setState({a: 5}, true). *)
Definition store_errored : Store :=
  exec (setState (Partial (obj 2 [("a", num 5)])) true)
    (exec (unsubscribe 0)
       (exec (setState (Partial (obj 1 [("bad", VBool true)])) false)
          (exec (hook_subscribe 0)
             (exec (useStore_subscription (Some (guarded "bad" "a")) None)
                store_ab)))).

(** ** Vocabulary of the further properties *)

(** Event [e] is a call of listener [l]: of the application's listener, or
    of the framework callback a subscription object wraps. *)
Definition is_call_of (l : StateListener) (e : event) : bool :=
  match l, e with
  | AppListener n, Call (ListenerFn n') _ => bool_decide (n' = n)
  | HookListener h, Call (OnChange h') _ => bool_decide (h' = h)
  | _, _ => false
  end.

Definition calls_of (l : StateListener) (t : list event) : list event :=
  List.filter (is_call_of l) t.

(** Listener [l] is the listener of exactly one registration. *)
Definition registered_once_as (l : StateListener)
    (ls : list (nat * Subscription)) : Prop :=
  length (filter (λ e, listener e.2 = l) ls) = 1.

(** No registration has listener [l]. *)
Definition unregistered (l : StateListener) (ls : list (nat * Subscription)) : Prop :=
  Forall (λ e, listener e.2 ≠ l) ls.

(** The call one subscription makes, if any, in a pass on held state [s]. *)
Definition notification (s : value) (sub : Subscription) : list event :=
  match delivery s sub with
  | Some args => listener_events (listener sub) args
  | None => []
  end.

(** Two registry entries are the same registration: the same identity,
    listener, selector and equality function (the cached slice may differ). *)
Definition same_registration (a b : nat * Subscription) : Prop :=
  a.1 = b.1 ∧ listener a.2 = listener b.2 ∧ selector a.2 = selector b.2 ∧
  equalityFn a.2 = equalityFn b.2.

(** Every identity in the registry was handed out by an earlier [subscribe]. *)
Definition identities_fresh (st : Store) : Prop :=
  Forall (λ e, e.1 < next_listener st) (listeners st).

(** [v] is not an object a later [Object.assign] of the store allocates. *)
Definition allocated_below (n : nat) (v : value) : Prop :=
  match v with
  | VObject (Merged k) _ => k < n
  | _ => True
  end.

(** What the listener of a subscription object does to its closure when
    called with [args] (lines 121-125). *)
Definition hook_reaction (args : list value) (hk : Hook) : Hook :=
  if truthy (nth 1 args VUndefined) then set_errored true hk
  else set_hook_currentSlice (nth 0 args VUndefined) hk.


(** [store_ab] with one subscription object (selector [guarded]) whose
    listener is registered. *)
Definition store_hooked : Store :=
  exec (hook_subscribe 0)
    (exec (useStore_subscription (Some (guarded "bad" "a")) None) store_ab).

(** * Lemmas *)

(** Two descriptions of a run's result agree once the store is taken apart. *)
Ltac store_eq st :=
  destruct st; cbn; rewrite <- ?app_assoc; cbn; rewrite ?app_nil_r; reflexivity.

Local Arguments notify : simpl never.
Local Arguments Object_assign : simpl never.

Lemma events_since_app st st' evs :
  trace st' = trace st ++ evs → events_since st st' = evs.
Proof. intros H. unfold events_since. by rewrite H, drop_app_length. Qed.

Lemma calls_app l t t' : calls l (t ++ t') = calls l t ++ calls l t'.
Proof. unfold calls. by rewrite flat_map_app. Qed.

Lemma notifications_app t t' :
  notifications (t ++ t') = notifications t ++ notifications t'.
Proof. unfold notifications. by rewrite List.filter_app. Qed.

(** ** Values and Object.assign *)

Lemma strict_equal_own_props x y :
  strict_equal x y = true → own_props x = own_props y.
Proof.
  unfold strict_equal.
  destruct x, y; try (intros H; apply bool_decide_eq_true in H; congruence); done.
Qed.

Lemma strict_equal_undefined s :
  strict_equal VUndefined s = true ↔ s = VUndefined.
Proof.
  unfold strict_equal. rewrite bool_decide_eq_true. split; congruence.
Qed.

Lemma Object_assign_two s x : Object_assign [s; x] = assign (own_props s) x.
Proof. unfold Object_assign, assign. cbn. by rewrite (right_id_L ∅ (∪)). Qed.

Lemma assign_lookup target source k :
  assign target source !! k =
  match own_props source !! k with Some v => Some v | None => target !! k end.
Proof.
  unfold assign. rewrite lookup_union.
  destruct (own_props source !! k), (target !! k); done.
Qed.

Lemma assign_dom target source :
  dom (assign target source) = dom (own_props source) ∪ dom target.
Proof. unfold assign. apply dom_union_L. Qed.

Lemma merged_value_foldl k base cs :
  foldl assign base cs !! k = merged_value k (base !! k) cs.
Proof.
  revert base. induction cs as [|c cs IH]; intros base; cbn; [done|].
  by rewrite IH, assign_lookup.
Qed.

(** ** The notification pass *)

Lemma call_listener_eq l args st :
  call_listener l args st =
  (Return tt, set_hooks (listener_hooks l args (hooks st))
                (set_trace (trace st ++ listener_events l args) st)).
Proof.
  destruct l as [n|h]; cbn.
  - store_eq st.
  - unfold hook_listener, update_hook, emit, write, bind.
    destruct (truthy (nth 1 args VUndefined)); store_eq st.
Qed.

Lemma listenerToAdd_eq sub st :
  listenerToAdd sub st =
  (Return (refreshed (state st) sub),
   set_hooks (run_hooks (state st) sub (hooks st))
     (set_trace (trace st ++ run_events (state st) sub) st)).
Proof.
  unfold listenerToAdd, try_catch, bind, read, refreshed, run_events, run_hooks,
    delivery, call_selector, call_equalityFn, emit, write, lift, ret.
  destruct sub as [l sel eq cur]; cbn.
  destruct sel as [f|]; cbn; [destruct (f (state st)) as [v|err]; cbn|].
  - destruct eq as [g|]; cbn;
      [destruct (g cur v) as [[|]|err]|destruct (Object_is cur v)]; cbn;
      rewrite ?call_listener_eq; store_eq st.
  - rewrite call_listener_eq. store_eq st.
  - destruct eq as [g|]; cbn;
      [destruct (g cur (state st)) as [[|]|err]
      |destruct (Object_is cur (state st))]; cbn;
      rewrite ?call_listener_eq; store_eq st.
Qed.

Lemma forEach_eq ls st :
  forEach ls st =
  (Return (pass_listeners (state st) ls),
   set_hooks (pass_hooks (state st) ls (hooks st))
     (set_trace (trace st ++ pass_events (state st) ls) st)).
Proof.
  revert st. induction ls as [|[id sub] rest IH]; intros st; cbn.
  - unfold ret. store_eq st.
  - unfold bind. rewrite listenerToAdd_eq, IH. unfold ret. store_eq st.
Qed.

Lemma notify_eq st :
  notify st =
  (Return tt,
   set_listeners (pass_listeners (state st) (listeners st))
     (set_hooks (pass_hooks (state st) (listeners st) (hooks st))
        (set_trace (trace st ++ pass_events (state st) (listeners st)) st))).
Proof.
  unfold notify, bind, read, write. rewrite forEach_eq. store_eq st.
Qed.

(** What one pass over the registry, on held state [s], brings listener [l]. *)
Section Pass.

Context (l : nat) (s : value).

Lemma calls_listener_events l' args :
  calls l (listener_events l' args)
  = if decide (l' = AppListener l) then [args] else [].
Proof.
  destruct l' as [n|h]; cbn; [|done].
  destruct (decide (n = l)) as [->|Hne].
  - by rewrite decide_True.
  - rewrite decide_False; [done | congruence].
Qed.

Lemma calls_run_events sub :
  calls l (run_events s sub)
  = if decide (listener sub = AppListener l) then delivered (delivery s sub)
    else [].
Proof.
  unfold run_events. rewrite !calls_app.
  assert (calls l (selector_events (selector sub) s) = []) as ->
    by (by destruct (selector sub)).
  assert (calls l match apply_selector (selector sub) s with
                  | Return v => equalityFn_events (equalityFn sub) (currentSlice sub) v
                  | Throw _ => []
                  end = []) as ->
    by (destruct (apply_selector (selector sub) s); [by destruct (equalityFn sub)|done]).
  cbn. destruct (delivery s sub) as [args|]; cbn.
  - apply calls_listener_events.
  - by destruct (decide _).
Qed.

Lemma listens_true e : listens l e = true ↔ listener e.2 = AppListener l.
Proof.
  unfold listens. destruct (listener e.2) as [n|h].
  - rewrite bool_decide_eq_true. split; congruence.
  - split; discriminate.
Qed.

Lemma calls_pass_events_none ls :
  List.filter (listens l) ls = [] → calls l (pass_events s ls) = [].
Proof.
  induction ls as [|e ls IH]; [done|]. cbn [List.filter]. intros H.
  destruct (listens l e) eqn:He; [discriminate|].
  change (pass_events s (e :: ls)) with (run_events s e.2 ++ pass_events s ls).
  rewrite calls_app, calls_run_events, (IH H).
  rewrite decide_False; [done|].
  intros E. apply listens_true in E. congruence.
Qed.

Lemma calls_pass_events ls i id sub :
  ls !! i = Some (id, sub) →
  listener sub = AppListener l →
  registered_once l ls →
  calls l (pass_events s ls) = delivered (delivery s sub).
Proof.
  unfold registered_once. intros Hi Hl Hone.
  rewrite <- (take_drop_middle ls i (id, sub) Hi) in *.
  rewrite List.filter_app in Hone. cbn in Hone.
  assert (listens l (id, sub) = true) as Hls by (by apply listens_true).
  rewrite Hls, length_app in Hone. cbn in Hone.
  assert (List.filter (listens l) (take i ls) = []) as Hb
    by (apply length_zero_iff_nil; lia).
  assert (List.filter (listens l) (drop (S i) ls) = []) as Ha
    by (apply length_zero_iff_nil; lia).
  unfold pass_events. rewrite flat_map_app.
  change (flat_map (λ e, run_events s e.2) ((id, sub) :: drop (S i) ls))
    with (run_events s sub ++ pass_events s (drop (S i) ls)).
  fold (pass_events s (take i ls)). rewrite !calls_app.
  rewrite (calls_pass_events_none _ Hb), (calls_pass_events_none _ Ha).
  rewrite calls_run_events, decide_True, app_nil_r; done.
Qed.

Lemma pass_listeners_lookup ls i id sub :
  ls !! i = Some (id, sub) →
  pass_listeners s ls !! i = Some (id, refreshed s sub).
Proof. intros H. unfold pass_listeners. by rewrite list_lookup_fmap, H. Qed.

End Pass.

Lemma calls_updater_events l partial s : calls l (updater_events partial s) = [].
Proof. by destruct partial. Qed.

(** ** setState, subscribe, getCurrentValue *)

Lemma setState_throw partial replace st error :
  candidate partial (state st) = Throw error →
  setState partial replace st =
  (Throw error, set_trace (trace st ++ updater_events partial (state st)) st).
Proof.
  intros H. unfold setState, bind, read, emit, write, lift.
  destruct partial as [v|f]; cbn in *; [done|]. rewrite H. store_eq st.
Qed.

Lemma setState_same partial replace st x :
  candidate partial (state st) = Return x →
  strict_equal x (state st) = true →
  setState partial replace st =
  (Return tt, set_trace (trace st ++ updater_events partial (state st)) st).
Proof.
  intros H Heq. unfold setState, bind, read, emit, write, lift, ret.
  destruct partial as [v|f]; cbn in *.
  - injection H as ->. rewrite Heq. store_eq st.
  - rewrite H. cbn. rewrite Heq. store_eq st.
Qed.

Lemma setState_accepted partial replace st x :
  candidate partial (state st) = Return x →
  strict_equal x (state st) = false →
  setState partial replace st = (Return tt, accepted partial replace x st).
Proof.
  intros H Heq.
  unfold setState, merge_state, bind, read, emit, write, lift, ret, accepted.
  destruct partial as [v|f]; cbn in *.
  - injection H as ->. rewrite Heq. cbn.
    destruct replace; cbn; rewrite notify_eq; store_eq st.
  - rewrite H. cbn. rewrite Heq. cbn.
    destruct replace; cbn; rewrite notify_eq; store_eq st.
Qed.

Lemma setState_merges partial st x :
  candidate partial (state st) = Return x →
  result (setState partial false) st = Return tt ∧
  own_props (state (exec (setState partial false) st))
  = assign (own_props (state st)) x.
Proof.
  intros Hc. unfold exec, result.
  destruct (strict_equal x (state st)) eqn:Heq.
  - rewrite (setState_same _ _ _ _ Hc Heq). cbn. split; [done|].
    apply strict_equal_own_props in Heq. unfold assign.
    by rewrite Heq, (idemp_L (∪)).
  - rewrite (setState_accepted _ _ _ _ Hc Heq). cbn. split; [done|].
    apply Object_assign_two.
Qed.

Lemma setState_state partial replace st ls :
  state (exec (setState partial replace) (set_listeners ls st))
  = state (exec (setState partial replace) st).
Proof.
  unfold exec.
  destruct (candidate partial (state st)) as [x|err] eqn:Hc.
  - destruct (strict_equal x (state st)) eqn:Heq.
    + rewrite (setState_same partial replace (set_listeners ls st) x),
        (setState_same partial replace st x); done.
    + rewrite (setState_accepted partial replace (set_listeners ls st) x),
        (setState_accepted partial replace st x); done.
  - rewrite (setState_throw partial replace (set_listeners ls st) err),
      (setState_throw partial replace st err); done.
Qed.

Lemma setState_no_listeners partial replace st :
  listeners st = [] →
  let st' := exec (setState partial replace) st in
  listeners st' = [] ∧ notifications (events_since st st') = [].
Proof.
  intros Hl. unfold exec.
  destruct (candidate partial (state st)) as [x|err] eqn:Hc.
  - destruct (strict_equal x (state st)) eqn:Heq.
    + rewrite (setState_same _ _ _ _ Hc Heq). cbn. split; [done|].
      erewrite events_since_app by (cbn; reflexivity). by destruct partial.
    + rewrite (setState_accepted _ _ _ _ Hc Heq). cbn. rewrite Hl.
      split; [done|].
      erewrite events_since_app by (cbn; reflexivity).
      rewrite Hl. cbn. rewrite app_nil_r. by destruct partial.
  - rewrite (setState_throw _ _ _ _ Hc). cbn. split; [done|].
    erewrite events_since_app by (cbn; reflexivity). by destruct partial.
Qed.

(** What an accepted [setState] brings the listener of one subscription. *)
Lemma setState_delivers partial replace st x i id sub l :
  candidate partial (state st) = Return x →
  strict_equal x (state st) = false →
  listeners st !! i = Some (id, sub) →
  listener sub = AppListener l →
  registered_once l (listeners st) →
  let st' := exec (setState partial replace) st in
  result (setState partial replace) st = Return tt ∧
  calls l (events_since st st') = delivered (delivery (state st') sub) ∧
  listeners st' !! i = Some (id, refreshed (state st') sub).
Proof.
  intros Hc Hne Hi Hl Hone. unfold exec, result.
  rewrite (setState_accepted _ _ _ _ Hc Hne). cbn.
  split; [done|]. split.
  - erewrite events_since_app by (cbn; reflexivity).
    rewrite calls_app, calls_updater_events. cbn.
    by apply (calls_pass_events _ _ _ i id).
  - by apply pass_listeners_lookup.
Qed.

Lemma subscribe_registers l sel eq st c :
  apply_selector sel (state st) = Return c →
  subscribe l sel eq st =
  (Return (next_listener st),
   set_listeners (listeners st ++
                    [(next_listener st,
                      {| listener := l; selector := sel; equalityFn := eq;
                         currentSlice := c |})])
     (set_next_listener (S (next_listener st))
        (set_trace (trace st ++ selector_events sel (state st)) st))).
Proof.
  intros Hc. unfold subscribe, bind, read, write, call_selector, emit, lift, ret.
  destruct sel as [f|]; cbn in *.
  - rewrite Hc. store_eq st.
  - injection Hc as <-. store_eq st.
Qed.

Lemma getCurrentValue_clear st h hk :
  hooks st !! h = Some hk →
  errored hk = false →
  getCurrentValue h st = (Return (hook_currentSlice hk), st).
Proof.
  intros Hh He. unfold getCurrentValue, bind, read, try_catch, ret.
  cbn. by rewrite Hh, He.
Qed.

Lemma getCurrentValue_errored st h hk :
  hooks st !! h = Some hk →
  errored hk = true →
  getCurrentValue h st =
  (Return match apply_selector (hook_selector hk) (state st) with
          | Return v =>
              match apply_equalityFn (hook_equalityFn hk) (hook_currentSlice hk) v with
              | Return false => v
              | _ => hook_currentSlice hk
              end
          | Throw _ => hook_currentSlice hk
          end,
   set_hooks (alter (set_errored false) h (hooks st))
     (set_trace
        (trace st ++ selector_events (hook_selector hk) (state st) ++
         match apply_selector (hook_selector hk) (state st) with
         | Return v =>
             equalityFn_events (hook_equalityFn hk) (hook_currentSlice hk) v
         | Throw _ => []
         end) st)).
Proof.
  intros Hh He.
  unfold getCurrentValue, bind, read, try_catch, update_hook, call_selector,
    call_equalityFn, emit, write, lift, ret.
  cbn. rewrite Hh, He.
  destruct hk as [sel eq cur flag]; cbn.
  destruct sel as [f|]; cbn; [destruct (f (state st)) as [v|err]; cbn|].
  - destruct eq as [g|]; cbn;
      [destruct (g cur v) as [[|]|err]|destruct (Object_is cur v)]; cbn;
      store_eq st.
  - store_eq st.
  - destruct eq as [g|]; cbn;
      [destruct (g cur (state st)) as [[|]|err]
      |destruct (Object_is cur (state st))]; cbn;
      store_eq st.
Qed.

(** ** Equality functions that are equivalences

    A subscription whose equality function is reflexive stays [in_step] with
    the held state from [subscribe] on, and for a congruent one comparing the
    new slice with the cached slice is comparing it with the old slice. *)

Lemma subscribed_in_step l sel eq s c :
  apply_selector sel s = Return c →
  apply_equalityFn eq c c = Return true →
  in_step {| listener := l; selector := sel; equalityFn := eq;
             currentSlice := c |} s.
Proof. intros Hc He. by exists c. Qed.


Lemma in_step_compares_old_slice sub old v_old v same :
  (∀ a b c r, apply_equalityFn (equalityFn sub) a b = Return true →
              apply_equalityFn (equalityFn sub) a c = Return r →
              apply_equalityFn (equalityFn sub) b c = Return r) →
  apply_selector (selector sub) old = Return v_old →
  in_step sub old →
  apply_equalityFn (equalityFn sub) (currentSlice sub) v = Return same →
  apply_equalityFn (equalityFn sub) v_old v = Return same.
Proof.
  intros Hcong Hold (w & Hw & Hstep) He.
  rewrite Hold in Hw. injection Hw as <-. by apply (Hcong (currentSlice sub)).
Qed.


(** ** The initializer *)

Lemma run_events_no_creation s sub :
  List.filter is_creation (run_events s sub) = [].
Proof.
  unfold run_events. rewrite !List.filter_app.
  assert (List.filter is_creation (selector_events (selector sub) s) = []) as ->
    by (by destruct (selector sub)).
  assert (List.filter is_creation
            match apply_selector (selector sub) s with
            | Return v => equalityFn_events (equalityFn sub) (currentSlice sub) v
            | Throw _ => []
            end = []) as ->
    by (destruct (apply_selector (selector sub) s);
        [by destruct (equalityFn sub)|done]).
  destruct (delivery s sub); [by destruct (listener sub)|done].
Qed.

Lemma pass_events_no_creation s ls :
  List.filter is_creation (pass_events s ls) = [].
Proof.
  induction ls as [|e ls IH]; [done|].
  change (pass_events s (e :: ls)) with (run_events s e.2 ++ pass_events s ls).
  by rewrite List.filter_app, run_events_no_creation, IH.
Qed.

(** No operation of the API calls the initializer. *)
Lemma setState_trace partial replace st :
  ∃ evs, trace (exec (setState partial replace) st) = trace st ++ evs ∧
         creations evs = 0.
Proof.
  unfold exec, creations.
  destruct (candidate partial (state st)) as [x|error] eqn:Hc.
  - destruct (strict_equal x (state st)) eqn:Heq.
    + rewrite (setState_same _ _ _ _ Hc Heq). cbn.
      eexists. split; [done|]. by destruct partial.
    + rewrite (setState_accepted _ _ _ _ Hc Heq). cbn.
      eexists. split; [done|].
      rewrite List.filter_app, pass_events_no_creation, app_nil_r.
      by destruct partial.
  - rewrite (setState_throw _ _ _ _ Hc). cbn.
    eexists. split; [done|]. by destruct partial.
Qed.

Lemma subscribe_trace l sel eq st :
  ∃ evs, trace (exec (subscribe l sel eq) st) = trace st ++ evs ∧
         creations evs = 0.
Proof.
  unfold exec, creations, subscribe, bind, read, write, call_selector, emit,
    lift, ret.
  destruct sel as [f|]; cbn; [destruct (f (state st)); cbn|].
  - by exists [Call SelectorFn [state st]].
  - by exists [Call SelectorFn [state st]].
  - exists []. by rewrite app_nil_r.
Qed.

Lemma call_createState_trace createState st :
  ∃ evs, trace (exec (call_createState createState) st) = trace st ++ evs ∧
         creations evs = 0.
Proof.
  revert st.
  induction createState as [r|partial replace k IH|k IH|l sel eq k IH|id k IH|k IH];
    intros st; unfold exec; cbn [call_createState].
  - exists []. cbn. by rewrite app_nil_r.
  - destruct (setState_trace partial replace st) as (e1 & H1 & Hn1).
    unfold exec in H1.
    destruct (setState partial replace st) as [r st1]; cbn in *.
    destruct (IH r st1) as (e2 & H2 & Hn2). unfold exec in H2.
    exists (e1 ++ e2). split; [rewrite app_assoc, <- H1; exact H2|].
    unfold creations in *. rewrite List.filter_app, length_app. lia.
  - apply (IH (state st) st).
  - destruct (subscribe_trace (AppListener l) sel eq st) as (e1 & H1 & Hn1).
    unfold exec in H1.
    destruct (subscribe (AppListener l) sel eq st) as [r st1]; cbn in *.
    destruct (IH r st1) as (e2 & H2 & Hn2). unfold exec in H2.
    exists (e1 ++ e2). split; [rewrite app_assoc, <- H1; exact H2|].
    unfold creations in *. rewrite List.filter_app, length_app. lia.
  - apply (IH (set_listeners (filter (λ e, e.1 ≠ id) (listeners st)) st)).
  - apply (IH (set_listeners [] st)).
Qed.

(** ** Listeners that throw *)

Section ThrowingFacts.

Context (throws : nat → list value → option value).

Local Arguments call_listener_with : simpl never.
Local Arguments notify_with : simpl never.

Lemma call_listener_with_returning l args st :
  (∀ n args', l = AppListener n → throws n args' = None) →
  call_listener_with throws l args st = call_listener l args st.
Proof.
  intros H. destruct l as [n|h]; [|done].
  unfold call_listener_with, call_listener, bind, emit, write.
  by rewrite (H n args eq_refl).
Qed.

(** With a listener that returns, a run of [listenerToAdd] ends normally and
    is the run described above. *)
Lemma listenerToAdd_with_returning sub st :
  (∀ n args, listener sub = AppListener n → throws n args = None) →
  listenerToAdd_with throws sub st =
  ((Return tt, refreshed (state st) sub),
   set_hooks (run_hooks (state st) sub (hooks st))
     (set_trace (trace st ++ run_events (state st) sub) st)).
Proof.
  intros H.
  unfold listenerToAdd_with, try_catch, bind, read, refreshed, run_events,
    run_hooks, delivery, call_selector, call_equalityFn, emit, write, lift, ret.
  destruct sub as [l sel eq cur]; cbn in *.
  destruct sel as [f|]; cbn; [destruct (f (state st)) as [v|err]; cbn|].
  - destruct eq as [g|]; cbn;
      [destruct (g cur v) as [[|]|err]|destruct (Object_is cur v)]; cbn;
      rewrite ?call_listener_with_returning by done;
      rewrite ?call_listener_eq; store_eq st.
  - rewrite call_listener_with_returning by done.
    rewrite call_listener_eq. store_eq st.
  - destruct eq as [g|]; cbn;
      [destruct (g cur (state st)) as [[|]|err]
      |destruct (Object_is cur (state st))]; cbn;
      rewrite ?call_listener_with_returning by done;
      rewrite ?call_listener_eq; store_eq st.
Qed.

Lemma forEach_with_returning ls st :
  returns_normally throws ls →
  forEach_with throws ls st =
  ((Return tt, pass_listeners (state st) ls),
   set_hooks (pass_hooks (state st) ls (hooks st))
     (set_trace (trace st ++ pass_events (state st) ls) st)).
Proof.
  intros H. revert st. induction H as [|[id sub] rest Hsub _ IH]; intros st.
  - cbn. store_eq st.
  - cbn [forEach_with]. rewrite (listenerToAdd_with_returning sub st Hsub), IH.
    store_eq st.
Qed.

Lemma notify_with_returning st :
  returns_normally throws (listeners st) →
  notify_with throws st = notify st.
Proof.
  intros H. rewrite notify_eq. unfold notify_with.
  rewrite (forEach_with_returning _ st H). store_eq st.
Qed.

(** With listeners that return, [setState_with] is [setState]. *)
Lemma setState_with_returning partial replace st :
  returns_normally throws (listeners st) →
  setState_with throws partial replace st = setState partial replace st.
Proof.
  intros H.
  unfold setState_with, setState, merge_state, bind, read, emit, write, lift, ret.
  destruct partial as [v|f]; cbn; [|destruct (f (state st)) as [x|err]; cbn].
  - destruct (strict_equal v (state st)); cbn; [done|].
    destruct replace; cbn; by rewrite notify_with_returning.
  - destruct (strict_equal x (state st)); cbn; [done|].
    destruct replace; cbn; by rewrite notify_with_returning.
  - done.
Qed.

End ThrowingFacts.

(** * Properties of the specification *)

(** C1.  Run setState(p1), ..., setState(pn) with replace left out, none of
    the function updaters throwing, and let c1, ..., cn be the candidates
    resolved (pi itself, or what pi returns on the state held then).  Every
    call completes, and the own properties of the state held at the end are
    those of the initial state with c1, ..., cn assigned over them in that
    order: under each key the value of the last candidate that has the key,
    taken as it is, and the initial value when no candidate has it. *)
Theorem C1_setState_sequence_is_shallow_merge partials st cs :
  candidates partials st = map Return cs →
  let st' := exec (setStates partials) st in
  result (setStates partials) st = Return tt ∧
  own_props (state st') = foldl assign (own_props (state st)) cs ∧
  ∀ k, own_props (state st') !! k
       = merged_value k (own_props (state st) !! k) cs.
Proof.
  intros Hcs st'.
  assert (result (setStates partials) st = Return tt ∧
          own_props (state st') = foldl assign (own_props (state st)) cs)
    as [Hr Hp].
  { subst st'. revert st cs Hcs.
    induction partials as [|p rest IH]; intros st cs Hcs.
    - destruct cs; [done | discriminate].
    - destruct cs as [|c cs]; [discriminate|]. cbn in Hcs.
      injection Hcs as Hc Hrest.
      destruct (setState_merges p st c Hc) as [Hr Hp].
      destruct (IH _ _ Hrest) as [IHr IHp].
      unfold exec, result in *. cbn. unfold bind.
      destruct (setState p false st) as [[[]|err] st1]; cbn in *; [|done].
      split; [done|]. by rewrite IHp, Hp. }
  split; [done|]. split; [done|].
  intros k. rewrite Hp. apply merged_value_foldl.
Qed.

Lemma C1_witness :
  let partials := [Updater increment; Updater increment; Updater increment] in
  candidates partials store_count
  = map Return [obj 1 [("count", num 1)]; obj 1 [("count", num 2)];
                obj 1 [("count", num 3)]] ∧
  own_props (state (exec (setStates partials) store_count)) !! "count"
  = Some (num 3).
Proof.
  intros partials.
  assert (candidates partials store_count
          = map Return [obj 1 [("count", num 1)]; obj 1 [("count", num 2)];
                        obj 1 [("count", num 3)]]) as H
    by (vm_compute; reflexivity).
  split; [exact H|].
  destruct (C1_setState_sequence_is_shallow_merge partials store_count _ H)
    as (_ & _ & Hk).
  rewrite Hk. reflexivity.
Defined.




(** With listeners that return, a subscription whose selector or equality
    function throws is called with (null, error), keeps its cached slice, and
    leaves the pass and the other subscriptions alone. *)
Lemma throwing_subscription_with_returning_listeners
    partial replace st x i id sub l error :
  candidate partial (state st) = Return x →
  strict_equal x (state st) = false →
  listeners st !! i = Some (id, sub) →
  listener sub = AppListener l →
  registered_once l (listeners st) →
  let st' := exec (setState partial replace) st in
  (apply_selector (selector sub) (state st') = Throw error ∨
   ∃ v, apply_selector (selector sub) (state st') = Return v ∧
        apply_equalityFn (equalityFn sub) (currentSlice sub) v = Throw error) →
  result (setState partial replace) st = Return tt ∧
  calls l (events_since st st') = [[VNull; error]] ∧
  listeners st' !! i = Some (id, sub) ∧
  ∀ j id' sub' l' v same,
    j ≠ i →
    listeners st !! j = Some (id', sub') →
    listener sub' = AppListener l' →
    registered_once l' (listeners st) →
    apply_selector (selector sub') (state st') = Return v →
    apply_equalityFn (equalityFn sub') (currentSlice sub') v = Return same →
    calls l' (events_since st st') = (if same then [] else [[v]]) ∧
    listeners st' !! j
    = Some (id', if same then sub' else set_currentSlice v sub').
Proof.
  intros Hc Hne Hi Hl Hone st' Hthrow.
  destruct (setState_delivers partial replace st x i id sub l Hc Hne Hi Hl Hone)
    as (Hr & Hcalls & Hls).
  fold st' in Hcalls, Hls. split; [done|].
  assert (delivery (state st') sub = Some [VNull; error] ∧
          refreshed (state st') sub = sub) as [Hd Hf].
  { unfold delivery, refreshed.
    destruct Hthrow as [Hs|(v & Hs & He)]; rewrite Hs; [done|]. by rewrite He. }
  rewrite Hcalls, Hls, Hd, Hf. split; [done|]. split; [done|].
  intros j id' sub' l' v same _ Hj Hl' Hone' Hv He.
  destruct (setState_delivers partial replace st x j id' sub' l' Hc Hne Hj Hl' Hone')
    as (_ & Hcalls' & Hls').
  fold st' in Hcalls', Hls'. rewrite Hcalls', Hls'.
  unfold delivery, refreshed. rewrite Hv, He. by destruct same.
Qed.

(** C3 as stated fails.  Registered in this order: listener 1 with a
    selector that throws "boom" on the new state, listener 2 with s => s.a,
    both listeners being (slice, error) => { if (error) throw error }.  On
    setState({a: 3, bad: true}) listener 1 is called as listener(null, "boom")
    and throws from the catch block: setState throws "boom", and listener 2,
    whose slice went from 1 to 3, is not called. *)
Lemma C3_counterexample :
  let x := obj 1 [("a", num 3); ("bad", VBool true)] in
  let st' := exec (setState_with rethrows (Partial x) false) store_two in
  guarded "bad" "a" (state st') = Throw (VString "boom") ∧
  pick "a" (state st') = Return (num 3) ∧
  Object_is (num 1) (num 3) = false ∧
  result (setState_with rethrows (Partial x) false) store_two
  = Throw (VString "boom") ∧
  calls 1 (events_since store_two st') = [[VNull; VString "boom"]] ∧
  calls 2 (events_since store_two st') = [].
Proof. vm_compute. repeat split. Qed.

(** C3, amended.  In the notification pass of an accepted setState in which
    every registered listener returns from the calls made to it, let the
    selector of one subscription (listener l, registered once) throw error on
    the new state, or its equality function throw error on the cached and the
    new slice.  Then setState completes without throwing, l is called exactly
    once, as l(null, error), the subscription keeps the cached slice it had,
    and every other subscription whose selector and equality function return
    gets its usual update in the same pass: its listener is called with the
    new slice if the equality function returned false, and not called if it
    returned true. *)
Theorem C3_throwing_subscription_is_isolated
    throws partial replace st x i id sub l error :
  returns_normally throws (listeners st) →
  candidate partial (state st) = Return x →
  strict_equal x (state st) = false →
  listeners st !! i = Some (id, sub) →
  listener sub = AppListener l →
  registered_once l (listeners st) →
  let st' := exec (setState_with throws partial replace) st in
  (apply_selector (selector sub) (state st') = Throw error ∨
   ∃ v, apply_selector (selector sub) (state st') = Return v ∧
        apply_equalityFn (equalityFn sub) (currentSlice sub) v = Throw error) →
  result (setState_with throws partial replace) st = Return tt ∧
  calls l (events_since st st') = [[VNull; error]] ∧
  listeners st' !! i = Some (id, sub) ∧
  ∀ j id' sub' l' v same,
    j ≠ i →
    listeners st !! j = Some (id', sub') →
    listener sub' = AppListener l' →
    registered_once l' (listeners st) →
    apply_selector (selector sub') (state st') = Return v →
    apply_equalityFn (equalityFn sub') (currentSlice sub') v = Return same →
    calls l' (events_since st st') = (if same then [] else [[v]]) ∧
    listeners st' !! j
    = Some (id', if same then sub' else set_currentSlice v sub').
Proof.
  intros Hret Hc Hne Hi Hl Hone st' Hthrow. subst st'.
  unfold exec, result in *.
  rewrite (setState_with_returning throws partial replace st Hret) in *.
  by apply (throwing_subscription_with_returning_listeners
              partial replace st x i id sub l error).
Qed.

Lemma C3_witness :
  let x := obj 1 [("a", num 3); ("bad", VBool true)] in
  let st' := exec (setState_with returns (Partial x) false) store_two in
  returns_normally returns (listeners store_two) ∧
  guarded "bad" "a" (state st') = Throw (VString "boom") ∧
  result (setState_with returns (Partial x) false) store_two = Return tt ∧
  calls 1 (events_since store_two st') = [[VNull; VString "boom"]] ∧
  calls 2 (events_since store_two st') = [[num 3]].
Proof.
  intros x st'.
  assert (returns_normally returns (listeners store_two)) as Hret
    by (repeat constructor).
  destruct (C3_throwing_subscription_is_isolated returns
              (Partial x) false store_two x 0 0
              {| listener := AppListener 1; selector := Some (guarded "bad" "a");
                 equalityFn := None; currentSlice := num 1 |}
              1 (VString "boom") Hret)
    as (Hr & H1 & _ & Hothers);
    [reflexivity | reflexivity | reflexivity | reflexivity | reflexivity
    | left; reflexivity |].
  destruct (Hothers 1 1
              {| listener := AppListener 2; selector := Some (pick "a");
                 equalityFn := None; currentSlice := num 1 |}
              2 (num 3) false) as [H2 _];
    [discriminate | reflexivity | reflexivity | reflexivity | reflexivity
    | reflexivity |].
  split; [exact Hret|]. split; [reflexivity|]. split; [exact Hr|].
  split; [exact H1 | exact H2].
Defined.

(** C4.  setState(x, true) with a candidate x that is not [===] the held
    state (given directly or returned by an updater) completes, makes x the
    held state as it is, so getState() returns exactly x, and every key that
    x does not have is absent from the held state afterwards, whatever the old
    state had under it. *)
Theorem C4_replace_installs_candidate partial st x :
  candidate partial (state st) = Return x →
  strict_equal x (state st) = false →
  let st' := exec (setState partial true) st in
  result (setState partial true) st = Return tt ∧
  state st' = x ∧
  result getState st' = Return x ∧
  ∀ k, own_props x !! k = None → own_props (state st') !! k = None.
Proof.
  intros Hc Hne. unfold exec, result.
  rewrite (setState_accepted _ _ _ _ Hc Hne). cbn. auto.
Qed.

Lemma C4_witness :
  let x := obj 1 [("a", num 5)] in
  let st' := exec (setState (Partial x) true) store_ab in
  own_props (state store_ab) !! "b" = Some (num 1) ∧
  state st' = x ∧ own_props (state st') !! "b" = None.
Proof.
  intros x st'.
  destruct (C4_replace_installs_candidate (Partial x) store_ab x)
    as (_ & Hs & _ & Hk); [reflexivity | reflexivity |].
  split; [reflexivity|]. split; [exact Hs|]. apply Hk. reflexivity.
Defined.

(** C5.  When the candidate setState resolves (the partial itself, or what a
    function updater returns) is [===] the held state, the call completes, the
    held state is the very same value, the registry and the subscription
    objects are untouched, and no listener and no framework callback is
    called. *)
Theorem C5_same_reference_is_skipped partial replace st x :
  candidate partial (state st) = Return x →
  strict_equal x (state st) = true →
  let st' := exec (setState partial replace) st in
  result (setState partial replace) st = Return tt ∧
  state st' = state st ∧
  listeners st' = listeners st ∧
  hooks st' = hooks st ∧
  notifications (events_since st st') = [].
Proof.
  intros Hc Heq. unfold exec, result.
  rewrite (setState_same _ _ _ _ Hc Heq). cbn.
  rewrite (events_since_app st _ (updater_events partial (state st)))
    by (by destruct st).
  repeat split; try (by destruct st). by destruct partial.
Qed.

Lemma C5_witness :
  let st := exec (subscribe (AppListener 1) None None) store_ab in
  let st' := exec (setState (Updater (λ s, Return s)) false) st in
  state st' = state st ∧ notifications (events_since st st') = [].
Proof.
  intros st st'.
  destruct (C5_same_reference_is_skipped (Updater (λ s, Return s)) false st (state st))
    as (_ & Hs & _ & _ & Hn); [reflexivity | vm_compute; reflexivity |].
  split; [exact Hs | exact Hn].
Defined.

(** C6.  destroy() completes, empties the registry and leaves the held state
    as it was; a second destroy() changes nothing.  After destroy(), a
    setState leaves the store holding the state it would have installed
    without the destroy (the candidate itself, or the merged object, when the
    candidate is accepted), calls no listener and no framework callback, and
    the registry stays empty.  A subscribe made after destroy() returns its
    unsubscribe identity and is the one entry of the registry, with the slice
    of the held state cached; on the next accepted setState its listener is
    called with the new slice when the equality function finds it different
    from the cached one, and not called when it finds them equal. *)
Theorem C6_destroy st :
  let d := exec destroy st in
  result destroy st = Return tt ∧
  listeners d = [] ∧
  state d = state st ∧
  exec destroy d = d ∧
  (∀ partial replace,
     let d' := exec (setState partial replace) d in
     state d' = state (exec (setState partial replace) st) ∧
     listeners d' = [] ∧
     notifications (events_since d d') = []) ∧
  (∀ partial replace x,
     candidate partial (state st) = Return x →
     strict_equal x (state st) = false →
     state (exec (setState partial replace) d)
     = if replace then x
       else VObject (Merged (next_object st)) (Object_assign [state st; x])) ∧
  (∀ l sel eq c,
     apply_selector sel (state st) = Return c →
     let sub := {| listener := AppListener l; selector := sel;
                   equalityFn := eq; currentSlice := c |} in
     let s1 := exec (subscribe (AppListener l) sel eq) d in
     result (subscribe (AppListener l) sel eq) d = Return (next_listener st) ∧
     listeners s1 = [(next_listener st, sub)] ∧
     state s1 = state st ∧
     ∀ partial replace x v same,
       candidate partial (state st) = Return x →
       strict_equal x (state st) = false →
       let s2 := exec (setState partial replace) s1 in
       apply_selector sel (state s2) = Return v →
       apply_equalityFn eq c v = Return same →
       calls l (events_since s1 s2) = (if same then [] else [[v]])).
Proof.
  intros d. subst d.
  assert (exec destroy st = set_listeners [] st) as -> by done.
  split; [done|]. split; [done|]. split; [done|]. split; [done|].
  split; [|split].
  - intros partial replace d'. subst d'. split; [apply setState_state|].
    by apply (setState_no_listeners partial replace (set_listeners [] st)).
  - intros partial replace x Hc Hne.
    rewrite setState_state. unfold exec.
    by rewrite (setState_accepted _ _ _ _ Hc Hne).
  - intros l sel eq c Hc sub s1. subst s1. unfold exec, result.
    rewrite (subscribe_registers (AppListener l) sel eq (set_listeners [] st) c)
      by done.
    cbn [fst snd]. split; [done|]. split; [done|]. split; [done|].
    match goal with
    | |- context [events_since ?S _] => set (s1 := S) in *
    end.
    intros partial replace x v same Hx Hne Hv He.
    destruct (setState_delivers partial replace s1 x 0 (next_listener st) sub l)
      as (_ & Hcalls & _); try done.
    { unfold registered_once. cbn. unfold listens. cbn.
      by rewrite bool_decide_eq_true_2. }
    unfold exec in Hcalls. rewrite Hcalls.
    unfold delivery. cbn. rewrite Hv, He. by destruct same.
Qed.

Lemma C6_witness :
  let d := exec destroy store_watched in
  let d' := exec (setState (Partial (obj 2 [("a", num 3)])) false) d in
  let s1 := exec (subscribe (AppListener 8) (Some (pick "a")) None) d in
  let s2 := exec (setState (Partial (obj 2 [("a", num 3)])) false) s1 in
  listeners store_watched ≠ [] ∧
  listeners d = [] ∧
  own_props (state d') !! "a" = Some (num 3) ∧
  notifications (events_since d d') = [] ∧
  calls 8 (events_since s1 s2) = [[num 3]].
Proof.
  intros d d' s1 s2.
  destruct (C6_destroy store_watched) as (_ & Hl & _ & _ & Hset & Hst & Hsub).
  destruct (Hset (Partial (obj 2 [("a", num 3)])) false) as (_ & _ & Hn).
  pose proof (Hst (Partial (obj 2 [("a", num 3)])) false (obj 2 [("a", num 3)])
                eq_refl eq_refl) as Hs.
  destruct (Hsub 8 (Some (pick "a")) None (num 1) eq_refl) as (_ & _ & _ & Hc).
  pose proof (Hc (Partial (obj 2 [("a", num 3)])) false (obj 2 [("a", num 3)])
                (num 3) false eq_refl eq_refl eq_refl eq_refl) as Hcalls.
  split; [discriminate|]. split; [exact Hl|].
  split; [subst d' d; rewrite Hs; reflexivity|].
  split; [exact Hn | exact Hcalls].
Defined.

(** C7.  Let hk be the closure of subscription object h.  If its errored
    flag is not set, getCurrentValue() returns the cached slice and leaves the
    store, trace included, exactly as it was: the selector is not called.  If
    the flag is set and the selector and the equality function return, the
    flag is cleared (it reads false afterwards), the selector is called on
    the held state, the result is
    the cached slice when the equality function finds the new slice equal to
    it and the new slice otherwise, and nothing but the flag changes in the
    closure.  In every case the cached slice, the held state and the registry
    are what they were. *)
Theorem C7_getCurrentValue st h hk :
  hooks st !! h = Some hk →
  let st' := exec (getCurrentValue h) st in
  (errored hk = false →
   result (getCurrentValue h) st = Return (hook_currentSlice hk) ∧ st' = st) ∧
  (errored hk = true →
   ∀ v same,
     apply_selector (hook_selector hk) (state st) = Return v →
     apply_equalityFn (hook_equalityFn hk) (hook_currentSlice hk) v
     = Return same →
     result (getCurrentValue h) st
     = Return (if same then hook_currentSlice hk else v) ∧
     hooks st' !! h = Some (set_errored false hk) ∧
     errored <$> hooks st' !! h = Some false ∧
     events_since st st'
     = selector_events (hook_selector hk) (state st) ++
       equalityFn_events (hook_equalityFn hk) (hook_currentSlice hk) v) ∧
  hook_currentSlice <$> hooks st' !! h = Some (hook_currentSlice hk) ∧
  state st' = state st ∧
  listeners st' = listeners st.
Proof.
  intros Hh st'. subst st'. unfold exec, result.
  destruct (errored hk) eqn:Hflag.
  - rewrite (getCurrentValue_errored st h hk Hh Hflag). cbn.
    split; [discriminate|]. split.
    + intros _ v same Hv He. rewrite Hv, He.
      rewrite lookup_alter_eq, Hh. cbn.
      erewrite events_since_app by reflexivity.
      by destruct same.
    + by rewrite lookup_alter_eq, Hh.
  - rewrite (getCurrentValue_clear st h hk Hh Hflag). cbn.
    split; [done|]. split; [discriminate|]. by rewrite Hh.
Qed.

Lemma C7_witness :
  let hk := {| hook_selector := Some (guarded "bad" "a");
               hook_equalityFn := None;
               hook_currentSlice := num 1; errored := true |} in
  let fresh := exec (useStore_subscription (Some (guarded "bad" "a")) None)
                 store_ab in
  hooks store_errored !! 0 = Some hk ∧
  result (getCurrentValue 0) store_errored = Return (num 5) ∧
  hooks (exec (getCurrentValue 0) store_errored) !! 0
  = Some (set_errored false hk) ∧
  errored <$> hooks store_errored !! 0 = Some true ∧
  errored <$> hooks (exec (getCurrentValue 0) store_errored) !! 0 = Some false ∧
  result (getCurrentValue 0) fresh = Return (num 1) ∧
  exec (getCurrentValue 0) fresh = fresh.
Proof.
  intros hk fresh.
  assert (hooks store_errored !! 0 = Some hk) as H by reflexivity.
  destruct (C7_getCurrentValue store_errored 0 hk H) as (_ & Hset & _).
  destruct (Hset eq_refl (num 5) false eq_refl eq_refl) as (Hr & Hf & He & _).
  destruct (C7_getCurrentValue fresh 0
              {| hook_selector := Some (guarded "bad" "a");
                 hook_equalityFn := None;
                 hook_currentSlice := num 1; errored := false |} eq_refl)
    as (Hclear & _).
  destruct (Hclear eq_refl) as (Hr' & Hsame).
  split; [exact H|]. split; [exact Hr|]. split; [exact Hf|].
  split; [reflexivity|]. split; [exact He|].
  split; [exact Hr' | exact Hsame].
Defined.

(** C8.  For every initializer f, whatever calls it makes to setState,
    getState and api while it runs: create(f) calls f exactly once, and that
    call is the first thing create does, before the store is handed out; when
    f returns v the factory completes, the held state is v (whatever f set
    before returning) and getState() returns v. *)
Theorem C8_create_initialises_state_once (createState : StateCreator) :
  let st := (create createState).2 in
  head (trace st) = Some (Call CreateState []) ∧
  creations (trace st) = 1 ∧
  ∀ v, result (call_createState createState) started = Return v →
       (create createState).1 = Return tt ∧
       state st = v ∧
       result getState st = Return v.
Proof.
  intros st. subst st.
  destruct (call_createState_trace createState started) as (evs & Htrace & Hnone).
  change (trace started) with [Call CreateState []] in Htrace.
  assert (create createState
          = match call_createState createState started with
            | (Return v, st1) => (Return tt, set_state v st1)
            | (Throw error, st1) => (Throw error, st1)
            end) as -> by reflexivity.
  unfold exec, result in *.
  destruct (call_createState createState started) as [[v|error] st1];
    cbn in *; rewrite Htrace.
  - split; [done|]. split.
    + unfold creations in *. cbn. by rewrite Hnone.
    + intros v' Hv. by injection Hv as <-.
  - split; [done|]. split; [|discriminate].
    unfold creations in *. cbn. by rewrite Hnone.
Qed.

Lemma C8_witness :
  let st := (create busy_initializer).2 in
  result (call_createState busy_initializer) started
  = Return (VObject (App 0) {[ "a" := VNumber (Int 1) ]}) ∧
  creations (trace st) = 1 ∧
  state st = VObject (App 0) {[ "a" := VNumber (Int 1) ]} ∧
  length (listeners st) = 1.
Proof.
  intros st.
  destruct (C8_create_initialises_state_once busy_initializer) as (_ & Hone & Hret).
  destruct (Hret (VObject (App 0) {[ "a" := VNumber (Int 1) ]}) eq_refl)
    as (_ & Hs & _).
  split; [reflexivity|]. split; [exact Hone|]. split; [exact Hs | reflexivity].
Defined.

(** C9 as stated fails: with replace falsy, a void-returning updater leaves
    the store holding a copy of the old state ({a: 1, b: 1} under a new
    reference), not undefined. *)
Lemma C9_counterexample :
  let st' := exec (setState (Updater returns_nothing) false) store_ab in
  returns_nothing (state store_ab) = Return VUndefined ∧
  state st' ≠ VUndefined ∧
  state st' = VObject (Merged 0) (own_props (state store_ab)).
Proof. vm_compute. repeat split; congruence. Qed.

(** C9, amended.  After setState with an updater that returns undefined: with
    replace truthy the held state is undefined; with replace falsy a held
    state that was undefined stays so, and any other held state is replaced
    by a newly allocated object with exactly the own properties of the old
    one. *)
Theorem C9_void_updater f replace st :
  f (state st) = Return VUndefined →
  let st' := exec (setState (Updater f) replace) st in
  result (setState (Updater f) replace) st = Return tt ∧
  (replace = true → state st' = VUndefined) ∧
  (replace = false → state st = VUndefined → state st' = VUndefined) ∧
  (replace = false → state st ≠ VUndefined →
   state st' = VObject (Merged (next_object st)) (own_props (state st))).
Proof.
  intros Hf. unfold exec, result.
  destruct (strict_equal VUndefined (state st)) eqn:Heq.
  - rewrite (setState_same (Updater f) replace st VUndefined Hf Heq). cbn.
    apply strict_equal_undefined in Heq.
    repeat split; intros; congruence.
  - rewrite (setState_accepted (Updater f) replace st VUndefined Hf Heq). cbn.
    assert (state st ≠ VUndefined) as Hne.
    { intros E. apply strict_equal_undefined in E. congruence. }
    repeat split; intros; subst; cbn; try done.
    rewrite Object_assign_two. unfold assign. cbn.
    by rewrite (left_id_L ∅ (∪)).
Qed.

Lemma C9_witness :
  state (exec (setState (Updater returns_nothing) true) store_ab) = VUndefined ∧
  state (exec (setState (Updater returns_nothing) false) store_ab) =
    VObject (Merged 0) (own_props (state store_ab)).
Proof.
  destruct (C9_void_updater returns_nothing true store_ab) as (_ & Ht & _);
    [reflexivity|].
  destruct (C9_void_updater returns_nothing false store_ab) as (_ & _ & _ & Hf);
    [reflexivity|].
  split; [apply Ht; reflexivity | apply Hf; [reflexivity | discriminate]].
Defined.

(** C10.  When the selector throws on the held state at subscribe time,
    subscribe throws that same error: no identity for an unsubscribe closure
    is returned, the registry and the held state are as before, and the only
    call recorded is the selector's (no listener was called with the
    error). *)
Theorem C10_subscribe_propagates_selector_error l s eq st error :
  s (state st) = Throw error →
  let st' := exec (subscribe l (Some s) eq) st in
  result (subscribe l (Some s) eq) st = Throw error ∧
  listeners st' = listeners st ∧
  state st' = state st ∧
  events_since st st' = [Call SelectorFn [state st]] ∧
  notifications (events_since st st') = [].
Proof.
  intros Hs. unfold exec, result, subscribe, bind, read, call_selector, emit,
    write, lift. cbn. rewrite Hs. cbn.
  rewrite (events_since_app st _ [Call SelectorFn [state st]]) by done.
  done.
Qed.

Lemma C10_witness :
  let st' := exec (subscribe (AppListener 1) (Some failing) None) store_ab in
  result (subscribe (AppListener 1) (Some failing) None) store_ab
    = Throw (VString "boom") ∧
  listeners st' = [] ∧
  notifications (events_since store_ab st') = [].
Proof.
  intros st'.
  destruct (C10_subscribe_propagates_selector_error
              (AppListener 1) failing None store_ab (VString "boom"))
    as (Hr & Hl & _ & _ & Hn); [reflexivity|].
  split; [exact Hr|]. split; [exact Hl | exact Hn].
Defined.

(** * Further properties *)

(** ** Support *)

Lemma setState_cases partial replace st :
  (∃ error, candidate partial (state st) = Throw error ∧
     setState partial replace st =
     (Throw error, set_trace (trace st ++ updater_events partial (state st)) st)) ∨
  (∃ x, candidate partial (state st) = Return x ∧
     strict_equal x (state st) = true ∧
     setState partial replace st =
     (Return tt, set_trace (trace st ++ updater_events partial (state st)) st)) ∨
  (∃ x, candidate partial (state st) = Return x ∧
     strict_equal x (state st) = false ∧
     setState partial replace st = (Return tt, accepted partial replace x st)).
Proof.
  destruct (candidate partial (state st)) as [x|error] eqn:Hc.
  - destruct (strict_equal x (state st)) eqn:Heq.
    + right; left. exists x. by rewrite (setState_same _ _ _ _ Hc Heq).
    + right; right. exists x. by rewrite (setState_accepted _ _ _ _ Hc Heq).
  - left. exists error. by rewrite (setState_throw _ _ _ _ Hc).
Qed.

Lemma notifications_updater_events partial s :
  notifications (updater_events partial s) = [].
Proof. by destruct partial. Qed.

Lemma notifications_run_events s sub :
  notifications (run_events s sub) = notification s sub.
Proof.
  unfold run_events, notification. rewrite !notifications_app.
  assert (notifications (selector_events (selector sub) s) = []) as ->
    by (by destruct (selector sub)).
  assert (notifications match apply_selector (selector sub) s with
                        | Return v =>
                            equalityFn_events (equalityFn sub) (currentSlice sub) v
                        | Throw _ => []
                        end = []) as ->
    by (destruct (apply_selector (selector sub) s);
        [by destruct (equalityFn sub)|done]).
  cbn. destruct (delivery s sub) as [args|]; [|done].
  by destruct (listener sub).
Qed.

Lemma notifications_pass_events s ls :
  notifications (pass_events s ls) = flat_map (λ e, notification s e.2) ls.
Proof.
  induction ls as [|e ls IH]; [done|].
  change (pass_events s (e :: ls)) with (run_events s e.2 ++ pass_events s ls).
  rewrite notifications_app, notifications_run_events, IH. done.
Qed.

Lemma notification_length s sub : length (notification s sub) ≤ 1.
Proof.
  unfold notification. destruct (delivery s sub); [|cbn; lia].
  destruct (listener sub); cbn; lia.
Qed.

Lemma refreshed_same_registration s e :
  same_registration e (e.1, refreshed s e.2).
Proof.
  unfold same_registration, refreshed. cbn.
  destruct (apply_selector (selector e.2) s) as [v|]; [|done].
  by destruct (apply_equalityFn (equalityFn e.2) (currentSlice e.2) v) as [[|]|].
Qed.

Lemma same_registration_refl ls : Forall2 same_registration ls ls.
Proof. induction ls; constructor; done. Qed.

Lemma pass_same_registrations s ls :
  Forall2 same_registration ls (pass_listeners s ls).
Proof.
  induction ls as [|e ls IH]; cbn; constructor; [|done].
  apply refreshed_same_registration.
Qed.

Lemma setState_same_registrations partial replace st :
  Forall2 same_registration (listeners st)
    (listeners (exec (setState partial replace) st)) ∧
  next_listener (exec (setState partial replace) st) = next_listener st.
Proof.
  unfold exec.
  destruct (setState_cases partial replace st)
    as [(e & _ & ->)|[(x & _ & _ & ->)|(x & _ & _ & ->)]]; cbn.
  - split; [apply same_registration_refl|done].
  - split; [apply same_registration_refl|done].
  - split; [apply pass_same_registrations|done].
Qed.

(** ** setState *)

(** X1.  When the function passed to setState throws, setState throws the
    same error; the held state, the registry and the subscription objects are
    what they were, and the updater call is the only call made: nobody is
    notified. *)
Theorem setState_updater_throws f replace st error :
  f (state st) = Throw error →
  let st' := exec (setState (Updater f) replace) st in
  result (setState (Updater f) replace) st = Throw error ∧
  state st' = state st ∧
  listeners st' = listeners st ∧
  hooks st' = hooks st ∧
  events_since st st' = [Call UpdaterFn [state st]].
Proof.
  intros Hf. unfold exec, result.
  rewrite (setState_throw (Updater f) replace st error Hf). cbn.
  by rewrite (events_since_app st _ [Call UpdaterFn [state st]]).
Qed.

Lemma setState_updater_throws_witness :
  let st' := exec (setState (Updater failing) false) store_watched in
  result (setState (Updater failing) false) store_watched = Throw (VString "boom") ∧
  state st' = state store_watched ∧
  listeners st' = listeners store_watched.
Proof.
  intros st'.
  destruct (setState_updater_throws failing false store_watched (VString "boom"))
    as (Hr & Hs & Hl & _); [reflexivity|].
  split; [exact Hr|]. split; [exact Hs | exact Hl].
Defined.

(** X2.  No setState call, whatever its outcome, adds, removes or reorders a
    registration: afterwards the registry holds the same identities with the
    same listener, selector and equality function, in the same order, and the
    next identity to hand out is unchanged.  Only cached slices can differ. *)
Theorem setState_keeps_registrations partial replace st :
  let st' := exec (setState partial replace) st in
  Forall2 same_registration (listeners st) (listeners st') ∧
  next_listener st' = next_listener st.
Proof. apply setState_same_registrations. Qed.

(** X3.  When every registered listener returns from the calls made to it,
    an accepted setState notifies in registration order, each subscription at
    most once: the listener and callback calls it makes are, registration by
    registration, the one call that subscription's selector and equality
    function determine on the new state, or none.  In particular there are at
    most as many calls as registrations. *)
Theorem setState_notifies_in_registration_order throws partial replace st x :
  returns_normally throws (listeners st) →
  candidate partial (state st) = Return x →
  strict_equal x (state st) = false →
  let st' := exec (setState_with throws partial replace) st in
  notifications (events_since st st')
  = flat_map (λ e, notification (state st') e.2) (listeners st) ∧
  length (notifications (events_since st st')) ≤ length (listeners st).
Proof.
  intros Hret Hc Hne. unfold exec.
  rewrite (setState_with_returning throws partial replace st Hret).
  rewrite (setState_accepted _ _ _ _ Hc Hne). cbn.
  erewrite events_since_app by (cbn; reflexivity).
  rewrite notifications_app, notifications_updater_events,
    notifications_pass_events. cbn.
  split; [done|]. clear Hret.
  induction (listeners st) as [|e ls IH]; cbn; [lia|].
  rewrite length_app.
  pose proof (notification_length
                (next_state replace (next_object st) (state st) x) e.2). lia.
Qed.

Lemma setState_notifies_in_registration_order_witness :
  let x := obj 1 [("a", num 3); ("bad", VBool true)] in
  let st' := exec (setState_with returns (Partial x) false) store_two in
  returns_normally returns (listeners store_two) ∧
  notifications (events_since store_two st')
  = [Call (ListenerFn 1) [VNull; VString "boom"]; Call (ListenerFn 2) [num 3]].
Proof.
  intros x st'.
  assert (returns_normally returns (listeners store_two)) as Hret
    by (repeat constructor).
  destruct (setState_notifies_in_registration_order returns (Partial x) false
              store_two x Hret)
    as [H _]; [reflexivity | reflexivity |].
  split; [exact Hret|]. unfold st'. rewrite H. reflexivity.
Defined.

Lemma setState_keeps_keys partial st :
  dom (own_props (state st))
  ⊆ dom (own_props (state (exec (setState partial false) st))).
Proof.
  unfold exec.
  destruct (setState_cases partial false st)
    as [(e & _ & ->)|[(x & _ & _ & ->)|(x & _ & _ & ->)]]; cbn; [done|done|].
  rewrite Object_assign_two, assign_dom. set_solver.
Qed.

(** X4.  Without replace no key is ever removed: after any sequence of
    setState(p) calls, whether a call merged, was skipped, or aborted the
    sequence by a throwing updater, every key of the state held at the start
    is a key of the state held at the end. *)
Theorem setStates_never_remove_a_key partials st :
  dom (own_props (state st))
  ⊆ dom (own_props (state (exec (setStates partials) st))).
Proof.
  revert st. induction partials as [|p rest IH]; intros st; [done|].
  pose proof (setState_keeps_keys p st) as Hp.
  unfold exec in *. cbn. unfold bind.
  destruct (setState p false st) as [[[]|err] st1]; cbn in *; [|done].
  etransitivity; [exact Hp | apply IH].
Qed.

(** X5.  An accepted setState without replace installs an object that
    Object.assign has just allocated: it is not [===] the state held before
    nor the candidate (the caller's partial is never retained as the state),
    provided neither of those is an object the store allocates later; the
    new state in turn was allocated before any later merge. *)
Theorem merge_installs_new_object partial st x :
  candidate partial (state st) = Return x →
  strict_equal x (state st) = false →
  allocated_below (next_object st) (state st) →
  allocated_below (next_object st) x →
  let st' := exec (setState partial false) st in
  strict_equal (state st') (state st) = false ∧
  strict_equal (state st') x = false ∧
  allocated_below (next_object st') (state st').
Proof.
  intros Hc Hne Hs Hx. unfold exec.
  rewrite (setState_accepted _ _ _ _ Hc Hne). cbn.
  split; [|split; [|lia]].
  - apply bool_decide_eq_false. intros E. rewrite <- E in Hs. cbn in Hs. lia.
  - apply bool_decide_eq_false. intros E. rewrite <- E in Hx. cbn in Hx. lia.
Qed.

Lemma merge_installs_new_object_witness :
  let x := obj 1 [] in
  let st' := exec (setState (Partial x) false) store_ab in
  own_props (state st') = own_props (state store_ab) ∧
  strict_equal (state st') (state store_ab) = false ∧
  strict_equal (state st') x = false.
Proof.
  intros x st'.
  destruct (merge_installs_new_object (Partial x) store_ab x)
    as (H1 & H2 & _); [reflexivity | reflexivity | exact I | exact I |].
  split; [reflexivity|]. split; [exact H1 | exact H2].
Defined.



(** ** subscribe and unsubscribe *)

Lemma unsubscribe_eq id st :
  unsubscribe id st
  = (Return tt, set_listeners (filter (λ e, e.1 ≠ id) (listeners st)) st).
Proof. done. Qed.

Lemma filter_keeps_all {A} (P : A → Prop) `{!∀ x, Decision (P x)} (l : list A) :
  Forall P l → filter P l = l.
Proof.
  induction 1 as [|x l Hx _ IH]; [done|].
  by rewrite filter_cons_True, IH.
Qed.

Lemma identities_fresh_setState partial replace st :
  identities_fresh st → identities_fresh (exec (setState partial replace) st).
Proof.
  unfold identities_fresh. intros H.
  destruct (setState_same_registrations partial replace st) as [Hreg ->].
  induction Hreg as [|a b la lb [Hid _] _ IH]; [constructor|].
  inversion H; subst. constructor; [by rewrite <- Hid | by apply IH].
Qed.

Lemma identities_fresh_subscribe l sel eq st :
  identities_fresh st → identities_fresh (exec (subscribe l sel eq) st).
Proof.
  unfold identities_fresh, exec. intros H.
  destruct (apply_selector sel (state st)) as [c|error] eqn:Hc.
  - rewrite (subscribe_registers l sel eq st c Hc). cbn.
    apply Forall_app. split; [|repeat constructor; cbn; lia].
    eapply Forall_impl; [exact H|]. cbn. lia.
  - unfold subscribe, bind, read, call_selector, emit, write, lift.
    destruct sel as [f|]; cbn in *; [|discriminate]. by rewrite Hc.
Qed.

Lemma identities_fresh_unsubscribe id st :
  identities_fresh st → identities_fresh (exec (unsubscribe id) st).
Proof.
  unfold identities_fresh, exec. rewrite unsubscribe_eq. cbn. intros H.
  apply Forall_forall. intros e [_ He]%list_elem_of_filter.
  by apply (proj1 (Forall_forall _ _) H).
Qed.

Lemma identities_fresh_call_createState createState st :
  identities_fresh st → identities_fresh (exec (call_createState createState) st).
Proof.
  revert st.
  induction createState as [r|partial replace k IH|k IH|l sel eq k IH|id k IH|k IH];
    intros st Hst; unfold exec; cbn [call_createState].
  - done.
  - pose proof (identities_fresh_setState partial replace st Hst) as H.
    unfold exec in H. destruct (setState partial replace st) as [r st1].
    by apply IH.
  - by apply (IH (state st) st).
  - pose proof (identities_fresh_subscribe (AppListener l) sel eq st Hst) as H.
    unfold exec in H. destruct (subscribe (AppListener l) sel eq st) as [r st1].
    by apply IH.
  - apply (IH (exec (unsubscribe id) st)). by apply identities_fresh_unsubscribe.
  - apply (IH (set_listeners [] st)). constructor.
Qed.

Lemma identities_fresh_create createState : identities_fresh (create createState).2.
Proof.
  assert (create createState
          = match call_createState createState started with
            | (Return v, st1) => (Return tt, set_state v st1)
            | (Throw error, st1) => (Throw error, st1)
            end) as -> by reflexivity.
  assert (identities_fresh started) as H0 by constructor.
  pose proof (identities_fresh_call_createState createState started H0) as H.
  unfold exec in H.
  by destruct (call_createState createState started) as [[v|error] st1].
Qed.

(** X7.  When the selector returns on the held state, subscribe appends one
    registration after the existing ones, which it leaves untouched, caches
    the slice of the held state in it, and returns its identity; it does not
    change the held state and does not call the listener (nor anyone else) at
    registration time. *)
Theorem subscribe_appends_without_calling l sel eq st c :
  apply_selector sel (state st) = Return c →
  let st' := exec (subscribe l sel eq) st in
  result (subscribe l sel eq) st = Return (next_listener st) ∧
  listeners st'
  = listeners st ++ [(next_listener st,
                      {| listener := l; selector := sel; equalityFn := eq;
                         currentSlice := c |})] ∧
  state st' = state st ∧
  hooks st' = hooks st ∧
  notifications (events_since st st') = [].
Proof.
  intros Hc. unfold exec, result.
  rewrite (subscribe_registers l sel eq st c Hc). cbn.
  erewrite events_since_app by (cbn; reflexivity).
  by destruct sel.
Qed.

Lemma subscribe_appends_without_calling_witness :
  let st' := exec (subscribe (AppListener 9) (Some (pick "b")) None) store_watched in
  result (subscribe (AppListener 9) (Some (pick "b")) None) store_watched = Return 1 ∧
  length (listeners st') = 2 ∧
  notifications (events_since store_watched st') = [].
Proof.
  intros st'.
  destruct (subscribe_appends_without_calling
              (AppListener 9) (Some (pick "b")) None store_watched (num 1))
    as (Hr & Hl & _ & _ & Hn); [reflexivity|].
  split; [exact Hr|]. split; [unfold st'; rewrite Hl; reflexivity | exact Hn].
Defined.

(** X8.  subscribe followed by the unsubscribe it returned restores the
    registry: on a store whose registrations all carry identities handed out
    earlier, the registry after the pair of calls is the registry before, and
    the held state is unchanged. *)
Theorem subscribe_then_unsubscribe_restores_registry l sel eq st c :
  identities_fresh st →
  apply_selector sel (state st) = Return c →
  let st1 := exec (subscribe l sel eq) st in
  let st2 := exec (unsubscribe (next_listener st)) st1 in
  result (subscribe l sel eq) st = Return (next_listener st) ∧
  listeners st2 = listeners st ∧
  state st2 = state st.
Proof.
  intros Hfresh Hc. unfold exec, result.
  rewrite (subscribe_registers l sel eq st c Hc), unsubscribe_eq. cbn.
  split; [done|]. split; [|done].
  rewrite filter_app, filter_cons_False, filter_nil, app_nil_r by (cbn; tauto).
  apply filter_keeps_all.
  eapply Forall_impl; [exact Hfresh|]. cbn. lia.
Qed.

Lemma subscribe_then_unsubscribe_restores_registry_witness :
  identities_fresh store_two ∧
  listeners (exec (unsubscribe 2)
               (exec (subscribe (AppListener 9) None None) store_two))
  = listeners store_two.
Proof.
  assert (identities_fresh store_two) as H.
  { apply identities_fresh_subscribe, identities_fresh_subscribe,
      identities_fresh_create. }
  split; [exact H|].
  destruct (subscribe_then_unsubscribe_restores_registry
              (AppListener 9) None None store_two (state store_two) H eq_refl)
    as (_ & Hl & _).
  exact Hl.
Defined.

(** X9.  unsubscribe never throws, never touches the held state and calls
    nobody; it removes every registration with the given identity and keeps
    all the others in their order; calling it again changes nothing more, and
    on an empty registry (after destroy) it changes nothing at all. *)
Theorem unsubscribe_removes_only_its_identity id st :
  let st' := exec (unsubscribe id) st in
  result (unsubscribe id) st = Return tt ∧
  state st' = state st ∧
  events_since st st' = [] ∧
  (∀ e, e ∈ listeners st' ↔ e ∈ listeners st ∧ e.1 ≠ id) ∧
  listeners st' `sublist_of` listeners st ∧
  exec (unsubscribe id) st' = st' ∧
  (listeners st = [] → st' = st).
Proof.
  unfold exec, result. rewrite !unsubscribe_eq. cbn.
  split; [done|]. split; [done|].
  split; [by rewrite (events_since_app st _ []) by (cbn; by rewrite app_nil_r)|].
  split; [intros e; rewrite list_elem_of_filter; tauto|].
  split; [apply sublist_filter|].
  split.
  - rewrite list_filter_filter_l by done. by destruct st.
  - intros H. destruct st; cbn in *. by subst.
Qed.

(** ** One listener among the registrations *)

Section Listener.

Context (l : StateListener) (s : value).

Lemma calls_of_app t t' : calls_of l (t ++ t') = calls_of l t ++ calls_of l t'.
Proof. unfold calls_of. by rewrite List.filter_app. Qed.

Lemma calls_of_listener_events l' args :
  calls_of l (listener_events l' args)
  = if decide (l' = l) then listener_events l' args else [].
Proof.
  destruct l as [n|h], l' as [n'|h']; cbn; try done.
  - destruct (decide (n' = n)) as [->|Hne].
    + by rewrite bool_decide_eq_true_2, decide_True.
    + rewrite bool_decide_eq_false_2, decide_False; [done|congruence|done].
  - destruct (decide (h' = h)) as [->|Hne].
    + by rewrite bool_decide_eq_true_2, decide_True.
    + rewrite bool_decide_eq_false_2, decide_False; [done|congruence|done].
Qed.

Lemma calls_of_run_events sub :
  calls_of l (run_events s sub)
  = if decide (listener sub = l) then notification s sub else [].
Proof.
  unfold run_events, notification. rewrite !calls_of_app.
  assert (calls_of l (selector_events (selector sub) s) = []) as ->
    by (destruct (selector sub), l; done).
  assert (calls_of l match apply_selector (selector sub) s with
                     | Return v =>
                         equalityFn_events (equalityFn sub) (currentSlice sub) v
                     | Throw _ => []
                     end = []) as ->
    by (destruct (apply_selector (selector sub) s);
        [destruct (equalityFn sub), l; done | done]).
  cbn. destruct (delivery s sub) as [args|].
  - apply calls_of_listener_events.
  - by destruct (decide _).
Qed.

Lemma calls_of_pass_unregistered ls :
  unregistered l ls → calls_of l (pass_events s ls) = [].
Proof.
  induction 1 as [|e ls He _ IH]; [done|].
  change (pass_events s (e :: ls)) with (run_events s e.2 ++ pass_events s ls).
  by rewrite calls_of_app, calls_of_run_events, IH, decide_False.
Qed.

Lemma filter_nil_unregistered ls :
  filter (λ e : nat * Subscription, listener e.2 = l) ls = [] → unregistered l ls.
Proof.
  intros H. apply Forall_forall. intros e He Hl.
  by apply (filter_nil_not_elem_of _ _ e H).
Qed.

Lemma registered_once_split ls i e :
  ls !! i = Some e →
  listener e.2 = l →
  registered_once_as l ls →
  unregistered l (take i ls) ∧ unregistered l (drop (S i) ls).
Proof.
  unfold registered_once_as. intros Hi Hl Hone.
  rewrite <- (take_drop_middle ls i e Hi) in Hone.
  rewrite filter_app, filter_cons_True, length_app in Hone by done.
  cbn in Hone.
  split; apply filter_nil_unregistered, length_zero_iff_nil; lia.
Qed.

Lemma calls_of_pass_once ls i id sub :
  ls !! i = Some (id, sub) →
  listener sub = l →
  registered_once_as l ls →
  calls_of l (pass_events s ls) = notification s sub.
Proof.
  intros Hi Hl Hone.
  destruct (registered_once_split ls i (id, sub) Hi Hl Hone) as [Hb Ha].
  rewrite <- (take_drop_middle ls i (id, sub) Hi).
  unfold pass_events. rewrite flat_map_app.
  change (flat_map (λ e, run_events s e.2) ((id, sub) :: drop (S i) ls))
    with (run_events s sub ++ pass_events s (drop (S i) ls)).
  fold (pass_events s (take i ls)). rewrite !calls_of_app.
  rewrite (calls_of_pass_unregistered _ Hb), (calls_of_pass_unregistered _ Ha).
  by rewrite calls_of_run_events, decide_True, app_nil_r.
Qed.

Lemma calls_of_updater_events partial s' :
  calls_of l (updater_events partial s') = [].
Proof. destruct partial, l; done. Qed.

Lemma unregistered_same_registrations ls ls' :
  Forall2 same_registration ls ls' → unregistered l ls → unregistered l ls'.
Proof.
  induction 1 as [|a b la lb (_ & Hl & _) _ IH]; [done|].
  inversion 1; subst. constructor; [by rewrite <- Hl | by apply IH].
Qed.

End Listener.

Lemma run_hooks_other s sub h hs :
  listener sub ≠ HookListener h → run_hooks s sub hs !! h = hs !! h.
Proof.
  intros Hne. unfold run_hooks, listener_hooks.
  destruct (delivery s sub) as [args|]; [|done].
  destruct (listener sub) as [n|h']; [done|].
  assert (h' ≠ h) by congruence.
  destruct (truthy (nth 1 args VUndefined)); by rewrite lookup_alter_ne.
Qed.

Lemma run_hooks_same s sub h hs :
  listener sub = HookListener h →
  run_hooks s sub hs !! h
  = match delivery s sub with
    | Some args => hook_reaction args <$> hs !! h
    | None => hs !! h
    end.
Proof.
  intros Hl. unfold run_hooks, listener_hooks, hook_reaction.
  destruct (delivery s sub) as [args|]; [|done]. rewrite Hl.
  destruct (truthy (nth 1 args VUndefined)); by rewrite lookup_alter_eq.
Qed.

Lemma pass_hooks_unregistered s ls h hs :
  unregistered (HookListener h) ls → pass_hooks s ls hs !! h = hs !! h.
Proof.
  intros H. revert hs. induction H as [|e ls He _ IH]; intros hs; [done|].
  cbn. fold (pass_hooks s ls (run_hooks s e.2 hs)).
  by rewrite IH, run_hooks_other.
Qed.

Lemma pass_hooks_once s ls i id sub h hs :
  ls !! i = Some (id, sub) →
  listener sub = HookListener h →
  registered_once_as (HookListener h) ls →
  pass_hooks s ls hs !! h
  = match delivery s sub with
    | Some args => hook_reaction args <$> hs !! h
    | None => hs !! h
    end.
Proof.
  intros Hi Hl Hone.
  destruct (registered_once_split _ ls i (id, sub) Hi Hl Hone) as [Hb Ha].
  rewrite <- (take_drop_middle ls i (id, sub) Hi).
  unfold pass_hooks. rewrite foldl_app. cbn.
  fold (pass_hooks s (take i ls) hs).
  fold (pass_hooks s (drop (S i) ls) (run_hooks s sub (pass_hooks s (take i ls) hs))).
  rewrite (pass_hooks_unregistered _ _ _ _ Ha), (run_hooks_same _ _ _ _ Hl).
  by rewrite (pass_hooks_unregistered _ _ _ _ Hb).
Qed.

(** What a setState call brings a listener no registration has. *)
Lemma setState_unregistered l partial replace st :
  unregistered l (listeners st) →
  let st' := exec (setState partial replace) st in
  calls_of l (events_since st st') = [] ∧
  unregistered l (listeners st') ∧
  ∀ h, l = HookListener h → hooks st' !! h = hooks st !! h.
Proof.
  intros Hun st'. split; [|split].
  - subst st'. unfold exec.
    destruct (setState_cases partial replace st)
      as [(e & _ & ->)|[(x & _ & _ & ->)|(x & _ & _ & ->)]]; cbn;
      erewrite events_since_app by (cbn; reflexivity);
      rewrite ?calls_of_app, calls_of_updater_events; [done|done|].
    by rewrite calls_of_pass_unregistered.
  - eapply unregistered_same_registrations; [|exact Hun].
    apply setState_same_registrations.
  - intros h ->. subst st'. unfold exec.
    destruct (setState_cases partial replace st)
      as [(e & _ & ->)|[(x & _ & _ & ->)|(x & _ & _ & ->)]]; cbn; [done|done|].
    by apply pass_hooks_unregistered.
Qed.

(** X10.  Once the unsubscribe of a listener's only registration has run,
    no registration has that listener, and the next setState, whatever it does,
    makes no call to it (application listener or framework callback alike)
    and leaves it unregistered. *)
Theorem unsubscribed_listener_is_silent st i id sub l partial replace :
  listeners st !! i = Some (id, sub) →
  listener sub = l →
  registered_once_as l (listeners st) →
  let u := exec (unsubscribe id) st in
  let u' := exec (setState partial replace) u in
  unregistered l (listeners u) ∧
  calls_of l (events_since u u') = [] ∧
  unregistered l (listeners u').
Proof.
  intros Hi Hl Hone u u'.
  assert (unregistered l (listeners u)) as Hun.
  { subst u. unfold exec. rewrite unsubscribe_eq. cbn.
    apply Forall_forall. intros e [Hid He]%list_elem_of_filter Hle.
    destruct (registered_once_split l _ i (id, sub) Hi Hl Hone) as [Hb Ha].
    rewrite <- (take_drop_middle _ i (id, sub) Hi) in He.
    apply elem_of_app in He as [He|He].
    - by apply (proj1 (Forall_forall _ _) Hb e).
    - apply elem_of_cons in He as [->|He]; [done|].
      by apply (proj1 (Forall_forall _ _) Ha e). }
  split; [done|].
  destruct (setState_unregistered l partial replace u Hun) as (Hc & Hu & _).
  done.
Qed.

Lemma unsubscribed_listener_is_silent_witness :
  let u := exec (unsubscribe 0) store_watched in
  let u' := exec (setState (Partial (obj 2 [("a", num 3)])) false) u in
  calls_of (AppListener 7)
    (events_since store_watched
       (exec (setState (Partial (obj 2 [("a", num 3)])) false) store_watched))
  = [Call (ListenerFn 7) [num 3]] ∧
  calls_of (AppListener 7) (events_since u u') = [].
Proof.
  intros u u'. split; [reflexivity|].
  destruct (unsubscribed_listener_is_silent store_watched 0 0
              {| listener := AppListener 7; selector := Some (pick "a");
                 equalityFn := None; currentSlice := num 1 |}
              (AppListener 7) (Partial (obj 2 [("a", num 3)])) false)
    as (_ & H & _); [reflexivity | reflexivity | reflexivity |].
  exact H.
Defined.

(** ** The subscription object of useStore *)

(** What an accepted [setState] does to a subscription object whose listener
    has one registration. *)
Lemma setState_reaches_hook partial replace st x i id sub h :
  candidate partial (state st) = Return x →
  strict_equal x (state st) = false →
  listeners st !! i = Some (id, sub) →
  listener sub = HookListener h →
  registered_once_as (HookListener h) (listeners st) →
  let st' := exec (setState partial replace) st in
  hooks st' !! h
  = match delivery (state st') sub with
    | Some args => hook_reaction args <$> hooks st !! h
    | None => hooks st !! h
    end ∧
  calls_of (HookListener h) (events_since st st') = notification (state st') sub.
Proof.
  intros Hc Hne Hi Hl Hone. unfold exec.
  rewrite (setState_accepted _ _ _ _ Hc Hne). cbn. split.
  - by apply (pass_hooks_once _ _ i id).
  - erewrite events_since_app by (cbn; reflexivity).
    rewrite calls_of_app, calls_of_updater_events. cbn.
    by apply (calls_of_pass_once _ _ _ i id).
Qed.

(** X11.  The listener path keeps the subscription object fresh.  When an
    accepted setState reaches the one registration of a subscription object
    and selector and equality function return: if the new slice differs from
    the registration's cached one, the object's cached slice becomes the new
    slice, its errored flag is untouched, the framework callback is called
    once, and (flag clear) getCurrentValue() then returns the new slice; if it
    does not differ, the object is unchanged and the callback is not called. *)
Theorem subscription_object_follows_notifications
    partial replace st x i id sub h hk v same :
  candidate partial (state st) = Return x →
  strict_equal x (state st) = false →
  listeners st !! i = Some (id, sub) →
  listener sub = HookListener h →
  registered_once_as (HookListener h) (listeners st) →
  hooks st !! h = Some hk →
  let st' := exec (setState partial replace) st in
  apply_selector (selector sub) (state st') = Return v →
  apply_equalityFn (equalityFn sub) (currentSlice sub) v = Return same →
  hooks st' !! h = Some (if same then hk else set_hook_currentSlice v hk) ∧
  calls_of (HookListener h) (events_since st st')
  = (if same then [] else [Call (OnChange h) []]) ∧
  (same = false → errored hk = false →
   result (getCurrentValue h) st' = Return v).
Proof.
  intros Hc Hne Hi Hl Hone Hh st' Hv He.
  destruct (setState_reaches_hook partial replace st x i id sub h
              Hc Hne Hi Hl Hone) as [Hhooks Hcalls].
  fold st' in Hhooks, Hcalls.
  unfold notification, delivery in *. rewrite Hv, He, Hh, Hl in *.
  destruct same; cbn in *.
  - split; [done|]. split; [done|]. discriminate.
  - split; [done|]. split; [done|]. intros _ Hflag. unfold result.
    by rewrite (getCurrentValue_clear st' h _ Hhooks Hflag).
Qed.

Lemma subscription_object_follows_notifications_witness :
  let st' := exec (setState (Partial (obj 2 [("a", num 3)])) false) store_hooked in
  result (getCurrentValue 0) store_hooked = Return (num 1) ∧
  calls_of (HookListener 0) (events_since store_hooked st')
  = [Call (OnChange 0) []] ∧
  result (getCurrentValue 0) st' = Return (num 3).
Proof.
  intros st'.
  destruct (subscription_object_follows_notifications
              (Partial (obj 2 [("a", num 3)])) false store_hooked
              (obj 2 [("a", num 3)]) 0 0
              {| listener := HookListener 0;
                 selector := Some (guarded "bad" "a");
                 equalityFn := None; currentSlice := num 1 |}
              0
              {| hook_selector := Some (guarded "bad" "a");
                 hook_equalityFn := None;
                 hook_currentSlice := num 1; errored := false |}
              (num 3) false)
    as (_ & Hcalls & Hread);
    [reflexivity | reflexivity | reflexivity | reflexivity | reflexivity
    | reflexivity | reflexivity | reflexivity |].
  split; [reflexivity|]. split; [exact Hcalls|]. by apply Hread.
Defined.

(** X12.  When the selector or the equality function of a subscription
    object's registration throws a truthy error during an accepted setState,
    the object's errored flag is set, its cached slice is kept, and the
    framework callback is called once. *)
Theorem subscription_object_records_error
    partial replace st x i id sub h hk error :
  candidate partial (state st) = Return x →
  strict_equal x (state st) = false →
  listeners st !! i = Some (id, sub) →
  listener sub = HookListener h →
  registered_once_as (HookListener h) (listeners st) →
  hooks st !! h = Some hk →
  let st' := exec (setState partial replace) st in
  (apply_selector (selector sub) (state st') = Throw error ∨
   ∃ v, apply_selector (selector sub) (state st') = Return v ∧
        apply_equalityFn (equalityFn sub) (currentSlice sub) v = Throw error) →
  truthy error = true →
  hooks st' !! h = Some (set_errored true hk) ∧
  calls_of (HookListener h) (events_since st st') = [Call (OnChange h) []].
Proof.
  intros Hc Hne Hi Hl Hone Hh st' Hthrow Htruthy.
  destruct (setState_reaches_hook partial replace st x i id sub h
              Hc Hne Hi Hl Hone) as [Hhooks Hcalls].
  fold st' in Hhooks, Hcalls.
  assert (delivery (state st') sub = Some [VNull; error]) as Hd.
  { unfold delivery.
    destruct Hthrow as [Hs|(v & Hs & He)]; rewrite Hs; [done|]. by rewrite He. }
  unfold notification in Hcalls. rewrite Hd, Hh, Hl in *.
  unfold hook_reaction in Hhooks. cbn in *. by rewrite Htruthy in Hhooks.
Qed.

Lemma subscription_object_records_error_witness :
  let st' := exec (setState (Partial (obj 1 [("bad", VBool true)])) false)
               store_hooked in
  errored <$> hooks store_hooked !! 0 = Some false ∧
  errored <$> hooks st' !! 0 = Some true ∧
  hook_currentSlice <$> hooks st' !! 0 = Some (num 1).
Proof.
  intros st'.
  destruct (subscription_object_records_error
              (Partial (obj 1 [("bad", VBool true)])) false store_hooked
              (obj 1 [("bad", VBool true)]) 0 0
              {| listener := HookListener 0;
                 selector := Some (guarded "bad" "a");
                 equalityFn := None; currentSlice := num 1 |}
              0
              {| hook_selector := Some (guarded "bad" "a");
                 hook_equalityFn := None;
                 hook_currentSlice := num 1; errored := false |}
              (VString "boom"))
    as (Hhooks & _);
    [reflexivity | reflexivity | reflexivity | reflexivity | reflexivity
    | reflexivity | left; reflexivity | reflexivity |].
  split; [reflexivity|]. unfold st'. rewrite Hhooks. by split.
Defined.

(** X13.  A falsy thrown value is not taken for an error.  When the selector
    or the equality function of a subscription object's registration throws
    undefined, null, 0, NaN, false or the empty string during an accepted
    setState, [if (error)] fails in the object's listener: the errored flag is
    left as it was and the cached slice is overwritten with null, the first
    argument of listener(null, error); the framework callback is called
    once. *)
Theorem falsy_error_overwrites_cached_slice
    partial replace st x i id sub h hk error :
  candidate partial (state st) = Return x →
  strict_equal x (state st) = false →
  listeners st !! i = Some (id, sub) →
  listener sub = HookListener h →
  registered_once_as (HookListener h) (listeners st) →
  hooks st !! h = Some hk →
  let st' := exec (setState partial replace) st in
  (apply_selector (selector sub) (state st') = Throw error ∨
   ∃ v, apply_selector (selector sub) (state st') = Return v ∧
        apply_equalityFn (equalityFn sub) (currentSlice sub) v = Throw error) →
  truthy error = false →
  hooks st' !! h = Some (set_hook_currentSlice VNull hk) ∧
  calls_of (HookListener h) (events_since st st') = [Call (OnChange h) []] ∧
  (errored hk = false → result (getCurrentValue h) st' = Return VNull).
Proof.
  intros Hc Hne Hi Hl Hone Hh st' Hthrow Hfalsy.
  destruct (setState_reaches_hook partial replace st x i id sub h
              Hc Hne Hi Hl Hone) as [Hhooks Hcalls].
  fold st' in Hhooks, Hcalls.
  assert (delivery (state st') sub = Some [VNull; error]) as Hd.
  { unfold delivery.
    destruct Hthrow as [Hs|(v & Hs & He)]; rewrite Hs; [done|]. by rewrite He. }
  unfold notification in Hcalls. rewrite Hd, Hh, Hl in *.
  unfold hook_reaction in Hhooks. cbn in *. rewrite Hfalsy in Hhooks.
  split; [done|]. split; [done|]. intros Hflag. unfold result.
  by rewrite (getCurrentValue_clear st' h _ Hhooks Hflag).
Qed.

Lemma falsy_error_overwrites_cached_slice_witness :
  let st0 := exec (hook_subscribe 0)
               (exec (useStore_subscription (Some (pick "a")) (Some (λ _ _, Throw VUndefined)))
                  store_ab) in
  let st' := exec (setState (Partial (obj 2 [("a", num 3)])) false) st0 in
  result (getCurrentValue 0) st0 = Return (num 1) ∧
  result (getCurrentValue 0) st' = Return VNull ∧
  errored <$> hooks st' !! 0 = Some false.
Proof.
  intros st0 st'.
  destruct (falsy_error_overwrites_cached_slice
              (Partial (obj 2 [("a", num 3)])) false st0
              (obj 2 [("a", num 3)]) 0 0
              {| listener := HookListener 0;
                 selector := Some (pick "a");
                 equalityFn := Some (λ _ _, Throw VUndefined);
                 currentSlice := num 1 |}
              0
              {| hook_selector := Some (pick "a");
                 hook_equalityFn := Some (λ _ _, Throw VUndefined);
                 hook_currentSlice := num 1; errored := false |}
              VUndefined)
    as (Hhooks & _ & Hread);
    [reflexivity | reflexivity | reflexivity | reflexivity | reflexivity
    | reflexivity | right; exists (num 3); split; reflexivity | reflexivity |].
  split; [reflexivity|]. split; [by apply Hread|].
  unfold st'. by rewrite Hhooks.
Defined.

Local Arguments getCurrentValue : simpl never.

(** X14.  A subscription object whose listener has no registration (the
    framework has not subscribed yet, or has unsubscribed) is out of reach of
    setState: whatever the call does, the object's closure is unchanged, the
    framework callback is not called, and with the errored flag clear
    getCurrentValue() still returns the slice cached before the call, however
    the state changed. *)
Theorem unsubscribed_object_is_stale partial replace st h hk :
  unregistered (HookListener h) (listeners st) →
  hooks st !! h = Some hk →
  let st' := exec (setState partial replace) st in
  hooks st' !! h = Some hk ∧
  calls_of (HookListener h) (events_since st st') = [] ∧
  (errored hk = false →
   result (getCurrentValue h) st' = Return (hook_currentSlice hk)).
Proof.
  intros Hun Hh st'.
  destruct (setState_unregistered (HookListener h) partial replace st Hun)
    as (Hcalls & _ & Hhooks).
  fold st' in Hcalls, Hhooks.
  assert (hooks st' !! h = Some hk) as Hh' by (by rewrite (Hhooks h eq_refl)).
  split; [done|]. split; [done|]. intros Hflag. unfold result.
  by rewrite (getCurrentValue_clear st' h hk Hh' Hflag).
Qed.

Lemma unsubscribed_object_is_stale_witness :
  let st := exec (useStore_subscription (Some (pick "a")) None) store_ab in
  let st' := exec (setState (Partial (obj 2 [("a", num 3)])) false) st in
  pick "a" (state st') = Return (num 3) ∧
  result (getCurrentValue 0) st' = Return (num 1).
Proof.
  intros st st'. split; [reflexivity|].
  destruct (unsubscribed_object_is_stale
              (Partial (obj 2 [("a", num 3)])) false st 0
              {| hook_selector := Some (pick "a"); hook_equalityFn := None;
                 hook_currentSlice := num 1; errored := false |})
    as (_ & _ & Hread); [constructor | reflexivity |].
  by apply Hread.
Defined.

(** X15.  getCurrentValue() does not let an exception out.  With the errored
    flag set, when the selector throws on the held state, or the equality
    function throws on the cached and the new slice, the call returns the
    cached slice, clears the flag and keeps the cached slice; the next call
    therefore returns the cached slice again without recomputing anything. *)
Theorem getCurrentValue_swallows_exceptions st h hk error :
  hooks st !! h = Some hk →
  errored hk = true →
  (apply_selector (hook_selector hk) (state st) = Throw error ∨
   ∃ v, apply_selector (hook_selector hk) (state st) = Return v ∧
        apply_equalityFn (hook_equalityFn hk) (hook_currentSlice hk) v
        = Throw error) →
  let st' := exec (getCurrentValue h) st in
  result (getCurrentValue h) st = Return (hook_currentSlice hk) ∧
  hooks st' !! h = Some (set_errored false hk) ∧
  result (getCurrentValue h) st' = Return (hook_currentSlice hk) ∧
  exec (getCurrentValue h) st' = st'.
Proof.
  intros Hh Hflag Hthrow st'. subst st'. unfold exec, result.
  rewrite (getCurrentValue_errored st h hk Hh Hflag). cbn.
  match goal with
  | |- context [set_hooks ?hs ?s] => set (st' := set_hooks hs s)
  end.
  assert (hooks st' !! h = Some (set_errored false hk)) as Hh'
    by (subst st'; cbn; by rewrite lookup_alter_eq, Hh).
  rewrite (getCurrentValue_clear st' h _ Hh' eq_refl). cbn.
  split; [|done].
  destruct Hthrow as [Hs|(v & Hs & He)]; rewrite Hs; [done|]. by rewrite He.
Qed.

Lemma getCurrentValue_swallows_exceptions_witness :
  let st := exec (setState (Partial (obj 1 [("bad", VBool true)])) false)
              store_hooked in
  guarded "bad" "a" (state st) = Throw (VString "boom") ∧
  result (getCurrentValue 0) st = Return (num 1) ∧
  errored <$> hooks (exec (getCurrentValue 0) st) !! 0 = Some false.
Proof.
  intros st.
  destruct (getCurrentValue_swallows_exceptions st 0
              {| hook_selector := Some (guarded "bad" "a");
                 hook_equalityFn := None;
                 hook_currentSlice := num 1; errored := true |}
              (VString "boom"))
    as (Hr & Hh & _); [reflexivity | reflexivity | left; reflexivity |].
  split; [reflexivity|]. split; [exact Hr|]. by rewrite Hh.
Defined.

(** X16.  The value getCurrentValue() recovers after an error is not cached.
    With the errored flag set and a new slice the equality function finds
    different from the cached one, the first call returns the new slice; a
    second call, with no state change in between, returns the old cached
    slice, and changes nothing. *)
Theorem getCurrentValue_recovery_is_not_cached st h hk v :
  hooks st !! h = Some hk →
  errored hk = true →
  apply_selector (hook_selector hk) (state st) = Return v →
  apply_equalityFn (hook_equalityFn hk) (hook_currentSlice hk) v = Return false →
  let st' := exec (getCurrentValue h) st in
  result (getCurrentValue h) st = Return v ∧
  state st' = state st ∧
  result (getCurrentValue h) st' = Return (hook_currentSlice hk) ∧
  exec (getCurrentValue h) st' = st'.
Proof.
  intros Hh Hflag Hv He st'. subst st'. unfold exec, result.
  rewrite (getCurrentValue_errored st h hk Hh Hflag). cbn.
  match goal with
  | |- context [set_hooks ?hs ?s] => set (st' := set_hooks hs s)
  end.
  assert (hooks st' !! h = Some (set_errored false hk)) as Hh'
    by (subst st'; cbn; by rewrite lookup_alter_eq, Hh).
  rewrite (getCurrentValue_clear st' h _ Hh' eq_refl). cbn.
  by rewrite Hv, He.
Qed.

Lemma getCurrentValue_recovery_is_not_cached_witness :
  let st' := exec (getCurrentValue 0) store_errored in
  result (getCurrentValue 0) store_errored = Return (num 5) ∧
  state st' = state store_errored ∧
  result (getCurrentValue 0) st' = Return (num 1).
Proof.
  intros st'.
  destruct (getCurrentValue_recovery_is_not_cached store_errored 0
              {| hook_selector := Some (guarded "bad" "a");
                 hook_equalityFn := None;
                 hook_currentSlice := num 1; errored := true |}
              (num 5))
    as (H1 & H2 & H3 & _);
    [reflexivity | reflexivity | reflexivity | reflexivity |].
  split; [exact H1|]. split; [exact H2 | exact H3].
Defined.

(** X17.  Building a subscription object (the factory passed to useMemo)
    with a selector that returns on the held state creates one new object,
    with the slice of the held state cached and the errored flag clear; the
    other subscription objects, the registry and the held state are untouched
    and nobody is called.  Read at once, the new object returns that slice
    and the read changes nothing. *)
Theorem useStore_subscription_builds_fresh_object sel eq st c :
  apply_selector sel (state st) = Return c →
  let h := next_hook st in
  let st' := exec (useStore_subscription sel eq) st in
  result (useStore_subscription sel eq) st = Return h ∧
  hooks st' !! h = Some {| hook_selector := sel; hook_equalityFn := eq;
                           hook_currentSlice := c; errored := false |} ∧
  (∀ h', h' ≠ h → hooks st' !! h' = hooks st !! h') ∧
  listeners st' = listeners st ∧
  state st' = state st ∧
  notifications (events_since st st') = [] ∧
  result (getCurrentValue h) st' = Return c ∧
  exec (getCurrentValue h) st' = st'.
Proof.
  intros Hc h st'.
  assert (useStore_subscription sel eq st
          = (Return h,
             set_hooks (<[h := {| hook_selector := sel; hook_equalityFn := eq;
                                  hook_currentSlice := c; errored := false |}]>
                          (hooks st))
               (set_next_hook (S h)
                  (set_trace (trace st ++ selector_events sel (state st)) st))))
    as Heq.
  { unfold useStore_subscription, bind, read, write, call_selector, emit, lift,
      ret. subst h.
    destruct sel as [f|]; cbn in *.
    - rewrite Hc. store_eq st.
    - injection Hc as <-. store_eq st. }
  subst st'. unfold exec, result. rewrite Heq. cbn.
  match goal with
  | |- context [getCurrentValue h ?s] => set (st' := s)
  end.
  assert (hooks st' !! h = Some {| hook_selector := sel; hook_equalityFn := eq;
                                   hook_currentSlice := c; errored := false |})
    as Hh by (subst st'; cbn; by rewrite lookup_insert_eq).
  rewrite (getCurrentValue_clear st' h _ Hh eq_refl). cbn.
  split; [done|]. split; [done|].
  split; [by intros h' Hne; rewrite lookup_insert_ne|].
  split; [done|]. split; [done|]. split; [|done].
  erewrite events_since_app by (subst st'; cbn; reflexivity).
  by destruct sel.
Qed.

Lemma useStore_subscription_builds_fresh_object_witness :
  let st' := exec (useStore_subscription (Some (pick "b")) None) store_hooked in
  result (useStore_subscription (Some (pick "b")) None) store_hooked = Return 1 ∧
  result (getCurrentValue 1) st' = Return (num 1) ∧
  hooks st' !! 0 = hooks store_hooked !! 0.
Proof.
  intros st'.
  destruct (useStore_subscription_builds_fresh_object
              (Some (pick "b")) None store_hooked (num 1))
    as (Hr & _ & Hother & _ & _ & _ & Hread & _); [reflexivity|].
  split; [exact Hr|]. split; [exact Hread|]. by apply Hother.
Defined.

(** X18.  subscription.subscribe(callback) registers the object's listener
    with the object's own selector and equality function and returns the
    store's unsubscribe for it.  The registration caches the slice of the state
    held now; the object's own cached slice, computed when the object was
    built, is not refreshed by subscribing, so a read right after still returns
    it, and nobody is called. *)
Theorem hook_subscribe_registers_object st h hk c :
  hooks st !! h = Some hk →
  apply_selector (hook_selector hk) (state st) = Return c →
  let st' := exec (hook_subscribe h) st in
  result (hook_subscribe h) st = Return (next_listener st) ∧
  listeners st'
  = listeners st ++ [(next_listener st,
                      {| listener := HookListener h;
                         selector := hook_selector hk;
                         equalityFn := hook_equalityFn hk;
                         currentSlice := c |})] ∧
  hooks st' = hooks st ∧
  state st' = state st ∧
  notifications (events_since st st') = [] ∧
  (errored hk = false →
   result (getCurrentValue h) st' = Return (hook_currentSlice hk)).
Proof.
  intros Hh Hc st'.
  assert (hook_subscribe h st
          = subscribe (HookListener h) (hook_selector hk) (hook_equalityFn hk) st)
    as Heq by (unfold hook_subscribe, bind, read; cbn; by rewrite Hh).
  subst st'. unfold exec, result. rewrite Heq.
  rewrite (subscribe_registers (HookListener h) (hook_selector hk)
             (hook_equalityFn hk) st c Hc).
  cbn [fst snd].
  match goal with
  | |- context [getCurrentValue h ?s] => set (st' := s)
  end.
  split; [done|]. split; [done|]. split; [done|]. split; [done|].
  split.
  - erewrite events_since_app by (subst st'; cbn; reflexivity).
    by destruct (hook_selector hk).
  - intros Hflag.
    by rewrite (getCurrentValue_clear st' h hk Hh Hflag).
Qed.

Lemma hook_subscribe_registers_object_witness :
  let st := exec (setState (Partial (obj 2 [("a", num 3)])) false)
              (exec (useStore_subscription (Some (pick "a")) None) store_ab) in
  let st' := exec (hook_subscribe 0) st in
  (currentSlice ∘ snd) <$> listeners st' = [num 3] ∧
  result (getCurrentValue 0) st' = Return (num 1).
Proof.
  intros st st'.
  destruct (hook_subscribe_registers_object st 0
              {| hook_selector := Some (pick "a"); hook_equalityFn := None;
                 hook_currentSlice := num 1; errored := false |} (num 3))
    as (_ & Hl & _ & _ & _ & Hread); [reflexivity | reflexivity |].
  split; [unfold st'; rewrite Hl; reflexivity | by apply Hread].
Defined.

(** ** Equality functions that are equivalences, along a run *)





(** ** A listener that throws *)

Section ThrowingListener.

Context (throws : nat → list value → option value).

Lemma setState_with_accepted partial replace st x :
  candidate partial (state st) = Return x →
  strict_equal x (state st) = false →
  setState_with throws partial replace st
  = notify_with throws (installed partial replace x st).
Proof.
  intros Hc Hne.
  unfold setState_with, merge_state, bind, read, emit, write, lift, ret, installed.
  destruct partial as [v|f]; cbn in *.
  - injection Hc as ->. rewrite Hne. cbn.
    destruct replace; cbn; f_equal; store_eq st.
  - rewrite Hc. cbn. rewrite Hne. cbn.
    destruct replace; cbn; f_equal; store_eq st.
Qed.

(** The run of [listenerToAdd] for a listener that throws when handed the
    new slice and throws again when handed the error. *)
Lemma listenerToAdd_with_throwing sub st n v e1 e2 :
  listener sub = AppListener n →
  apply_selector (selector sub) (state st) = Return v →
  apply_equalityFn (equalityFn sub) (currentSlice sub) v = Return false →
  throws n [v] = Some e1 →
  throws n [VNull; e1] = Some e2 →
  listenerToAdd_with throws sub st
  = ((Throw e2, set_currentSlice v sub),
     set_trace (trace st ++ selector_events (selector sub) (state st)
                  ++ equalityFn_events (equalityFn sub) (currentSlice sub) v
                  ++ [Call (ListenerFn n) [v]; Call (ListenerFn n) [VNull; e1]])
       st).
Proof.
  intros Hl Hv He H1 H2.
  unfold listenerToAdd_with, call_listener_with, try_catch, bind, read,
    call_selector, call_equalityFn, emit, write, lift, ret, throw.
  destruct sub as [l sel eq cur]; cbn in *. subst l.
  destruct sel as [f|]; cbn in *;
    [rewrite Hv | injection Hv as <-]; cbn;
    (destruct eq as [g|]; cbn in *;
     [rewrite He | injection He as ->]; cbn;
     rewrite H1; cbn; rewrite H2; store_eq st).
Qed.

Lemma forEach_with_throwing before id sub after st n v e1 e2 :
  returns_normally throws before →
  listener sub = AppListener n →
  apply_selector (selector sub) (state st) = Return v →
  apply_equalityFn (equalityFn sub) (currentSlice sub) v = Return false →
  throws n [v] = Some e1 →
  throws n [VNull; e1] = Some e2 →
  forEach_with throws (before ++ (id, sub) :: after) st
  = ((Throw e2,
      pass_listeners (state st) before ++ (id, set_currentSlice v sub) :: after),
     set_hooks (pass_hooks (state st) before (hooks st))
       (set_trace (trace st ++ pass_events (state st) before
                     ++ selector_events (selector sub) (state st)
                     ++ equalityFn_events (equalityFn sub) (currentSlice sub) v
                     ++ [Call (ListenerFn n) [v]; Call (ListenerFn n) [VNull; e1]])
          st)).
Proof.
  intros Hret Hl Hv He H1 H2. revert st Hv.
  induction Hret as [|[id0 sub0] rest Hsub _ IH]; intros st Hv.
  - cbn [app forEach_with].
    rewrite (listenerToAdd_with_throwing sub st n v e1 e2 Hl Hv He H1 H2).
    store_eq st.
  - cbn [app forEach_with].
    rewrite (listenerToAdd_with_returning throws sub0 st Hsub).
    rewrite IH by done. store_eq st.
Qed.

End ThrowingListener.

(** X21.  A listener that throws is called a second time and ends the pass.
    In an accepted setState, with the listeners registered before it
    returning, let a subscription's selector return a slice v its equality
    function finds different, and let its listener throw e1 when called with v
    and e2 when called again as listener(null, e1) from the catch block.  Then
    setState throws e2; the new state stays installed and the subscription's
    cached slice is already v; the calls made are those of the earlier
    registrations, then listener(v) and listener(null, e1); no later
    registration is called, and their closures are as they were. *)
Theorem throwing_listener_ends_the_pass
    throws partial replace st x before id sub after n v e1 e2 :
  candidate partial (state st) = Return x →
  strict_equal x (state st) = false →
  listeners st = before ++ (id, sub) :: after →
  returns_normally throws before →
  listener sub = AppListener n →
  let s' := next_state replace (next_object st) (state st) x in
  apply_selector (selector sub) s' = Return v →
  apply_equalityFn (equalityFn sub) (currentSlice sub) v = Return false →
  throws n [v] = Some e1 →
  throws n [VNull; e1] = Some e2 →
  let st' := exec (setState_with throws partial replace) st in
  result (setState_with throws partial replace) st = Throw e2 ∧
  state st' = s' ∧
  notifications (events_since st st')
  = flat_map (λ e, notification s' e.2) before
    ++ [Call (ListenerFn n) [v]; Call (ListenerFn n) [VNull; e1]] ∧
  listeners st'
  = pass_listeners s' before ++ (id, set_currentSlice v sub) :: after.
Proof.
  intros Hc Hne Hls Hret Hl s' Hv He H1 H2 st'. subst st'.
  unfold exec, result.
  rewrite (setState_with_accepted throws partial replace st x Hc Hne).
  unfold notify_with.
  assert (listeners (installed partial replace x st)
          = before ++ (id, sub) :: after) as -> by done.
  rewrite (forEach_with_throwing throws before id sub after
             (installed partial replace x st) n v e1 e2 Hret Hl Hv He H1 H2).
  cbn. split; [done|]. split; [done|]. split; [|done].
  erewrite events_since_app by (rewrite <- !app_assoc; reflexivity).
  rewrite !notifications_app, notifications_updater_events,
    notifications_pass_events.
  assert (∀ sel s, notifications (selector_events sel s) = []) as Hsel
    by (by intros [?|] ?).
  assert (∀ eq a b, notifications (equalityFn_events eq a b) = []) as Heq
    by (by intros [?|] ? ?).
  by rewrite Hsel, Heq.
Qed.

Lemma throwing_listener_ends_the_pass_witness :
  let x := obj 2 [("a", num 3)] in
  let st' := exec (setState_with one_throws (Partial x) false) store_two in
  result (setState_with one_throws (Partial x) false) store_two
  = Throw (VString "no") ∧
  own_props (state st') !! "a" = Some (num 3) ∧
  notifications (events_since store_two st')
  = [Call (ListenerFn 1) [num 3]; Call (ListenerFn 1) [VNull; VString "no"]] ∧
  calls 2 (events_since store_two st') = [].
Proof.
  intros x st'.
  destruct (throwing_listener_ends_the_pass one_throws (Partial x) false
              store_two x [] 0
              {| listener := AppListener 1; selector := Some (guarded "bad" "a");
                 equalityFn := None; currentSlice := num 1 |}
              [(1, {| listener := AppListener 2; selector := Some (pick "a");
                      equalityFn := None; currentSlice := num 1 |})]
              1 (num 3) (VString "no") (VString "no"))
    as (Hr & Hs & Hn & _);
    [reflexivity | reflexivity | reflexivity | constructor | reflexivity
    | reflexivity | reflexivity | reflexivity | reflexivity |].
  split; [exact Hr|]. split; [unfold st'; rewrite Hs; reflexivity|].
  split; [exact Hn | reflexivity].
Defined.
